(** * fidesctl: interactive dataset annotation and dataset generation

    A shallow embedding of
      - [fidesctl/core/annotate_dataset.py]
      - [fidesctl/core/generate_dataset.py]
    together with the properties of the two pipelines.

    Python [str] values are sequences of Unicode code points; they are
    modelled as lists of [N].  The interactive surface ([click.prompt],
    [click.confirm], [click.secho]) and the manifest writer are modelled by an
    operator script that is consumed and a trace of events that is emitted. *)

From Stdlib Require Import String Ascii List Arith NArith Bool Lia.
Import ListNotations.
Local Open Scope list_scope.

Set Implicit Arguments.

(* ===================================================================== *)
(** ** Python strings *)
(* ===================================================================== *)

Module PyStr.

(** A [str] is a sequence of code points. *)
Definition str := list N.

(** Literals: every character of a Rocq string is read as its code point. *)
Fixpoint py (s : string) : str :=
  match s with
  | EmptyString => []
  | String a s' => N_of_ascii a :: py s'
  end.

Definition comma : N := 44%N.

(** [==] on [str]. *)
Fixpoint str_eqb (a b : str) : bool :=
  match a, b with
  | [], [] => true
  | x :: a', y :: b' => N.eqb x y && str_eqb a' b'
  | _, _ => false
  end.

(** [==] on [List[str]]. *)
Fixpoint strs_eqb (a b : list str) : bool :=
  match a, b with
  | [], [] => true
  | x :: a', y :: b' => str_eqb x y && strs_eqb a' b'
  | _, _ => false
  end.

(** [x in xs] for a list of strings. *)
Definition str_in (x : str) (xs : list str) : bool := existsb (str_eqb x) xs.

(** [str.isspace] on one code point: the characters [str.strip()] removes
    (bidirectional type WS, B or S, or category Zs). *)
Definition isspace (c : N) : bool :=
  (((9 <=? c) && (c <=? 13)) || ((28 <=? c) && (c <=? 32))
   || (c =? 133) || (c =? 160) || (c =? 5760)
   || ((8192 <=? c) && (c <=? 8202))
   || (c =? 8232) || (c =? 8233) || (c =? 8239) || (c =? 8287)
   || (c =? 12288))%N.

Fixpoint lstrip (s : str) : str :=
  match s with
  | [] => []
  | c :: s' => if isspace c then lstrip s' else s
  end.

Definition rstrip (s : str) : str := rev (lstrip (rev s)).

(** [s.strip()] *)
Definition strip (s : str) : str := rstrip (lstrip s).

(** [s.split(sep)] for a one-character separator: never the empty list,
    [''.split(',') == ['']]. *)
Fixpoint split (sep : N) (s : str) : list str :=
  match s with
  | [] => [[]]
  | c :: s' =>
      if N.eqb c sep then [] :: split sep s'
      else match split sep s' with
           | [] => [[c]]
           | w :: ws => (c :: w) :: ws
           end
  end.

End PyStr.
Import PyStr.

(* ===================================================================== *)
(** ** The dataset model (fideslang.models) *)
(* ===================================================================== *)

(** Modelled from the spec: the class [DatasetField] of [fideslang.models],
    which is not part of the two modules: a named, described leaf entity,
    optionally carrying a list of category labels ([None] when absent). *)
Record DatasetField := mkField {
  field_name : str;
  field_description : str;
  field_data_categories : option (list str)
}.

(** Modelled from the spec: the class [DatasetCollection] of
    [fideslang.models]: a named, described entity owning an ordered sequence
    of fields and optionally a list of category labels. *)
Record DatasetCollection := mkCollection {
  collection_name : str;
  collection_description : str;
  collection_data_categories : option (list str);
  fields : list DatasetField
}.

(** Modelled from the spec: the class [Dataset] of [fideslang.models]: a
    named, described top-level entity identified by a key, owning an ordered
    sequence of collections and optionally a list of category labels. *)
Record Dataset := mkDataset {
  fides_key : str;
  name : str;
  description : str;
  data_categories : option (list str);
  collections : list DatasetCollection
}.

(** Truthiness of an [Optional[List[str]]]: [None] and [[]] are falsy. *)
Definition truthy (cats : option (list str)) : bool :=
  match cats with
  | None => false
  | Some [] => false
  | Some (_ :: _) => true
  end.

(** [Union[Dataset, DatasetCollection, DatasetField]] *)
Inductive dataset_member :=
| MDataset (d : Dataset)
| MCollection (c : DatasetCollection)
| MField (f : DatasetField).

Definition member_name (m : dataset_member) : str :=
  match m with
  | MDataset d => name d
  | MCollection c => collection_name c
  | MField f => field_name f
  end.

Definition member_categories (m : dataset_member) : option (list str) :=
  match m with
  | MDataset d => data_categories d
  | MCollection c => collection_data_categories c
  | MField f => field_data_categories f
  end.

Definition is_field (m : dataset_member) : bool :=
  match m with MField _ => true | _ => false end.

(* ===================================================================== *)
(** ** The interactive surface *)
(* ===================================================================== *)

(** What [click.secho] prints; the interpolated values are kept apart. *)
Inductive message :=
| MsgVisualizer (resource_type : str)
| MsgAnnotatingDataset (dataset : str)
| MsgDatabaseNoCategories (dataset : str)
| MsgAnnotatingTable (table : str)
| MsgTableNoCategories (table : str)
| MsgFieldNoCategories (table field : str)
| MsgSetting (table field : str) (user_categories : list str)
| MsgInvalid (user_response : list str).

(** One observable action of a run.  [Prompt m] is the [click.prompt] whose
    message names the member [m]. *)
Inductive event :=
| Secho (m : message)
| Prompt (m : dataset_member)
| Confirm
| WriteManifest (file_name : str) (output : list Dataset) (resource_type : str).

(** The scripted operator: the lines still to be returned by [click.prompt]
    and the answers still to be returned by [click.confirm]. *)
Record operator := mkOperator {
  answers : list str;
  confirms : list bool
}.

Inductive exn :=
| AnnotationAbortError
| FidesValidationError
| ValueError
| UnboundLocalError.

(** How a computation ends: it returns, raises, or waits for input that the
    script does not hold. *)
Inductive outcome (A : Type) :=
| Return (a : A)
| Raise (e : exn)
| Blocked.
Arguments Raise {A} e.
Arguments Blocked {A}.

Record run (A : Type) := mkRun {
  out : outcome A;
  remaining : operator;
  trace : list event
}.

Definition M (A : Type) := operator -> run A.

Definition ret {A} (a : A) : M A := fun op => mkRun (Return a) op [].

Definition raise {A} (e : exn) : M A := fun op => mkRun (Raise e) op [].

Definition bind {A B} (m : M A) (k : A -> M B) : M B :=
  fun op =>
    let r := m op in
    match out r with
    | Return a =>
        let r' := k a (remaining r) in
        mkRun (out r') (remaining r') (trace r ++ trace r')
    | Raise e => mkRun (Raise e) (remaining r) (trace r)
    | Blocked => mkRun Blocked (remaining r) (trace r)
    end.

Notation "x <- m ;; k" := (bind m (fun x => k))
  (at level 61, m at next level, right associativity).
Notation "m ;;; k" := (bind m (fun _ => k))
  (at level 61, right associativity).

Definition emit (e : event) : M unit := fun op => mkRun (Return tt) op [e].

Definition secho (m : message) : M unit := emit (Secho m).

(** [try: body except AnnotationAbortError: handler] *)
Definition try_except_abort {A} (body : M A) (handler : M A) : M A :=
  fun op =>
    let r := body op in
    match out r with
    | Raise AnnotationAbortError =>
        let r' := handler (remaining r) in
        mkRun (out r') (remaining r') (trace r ++ trace r')
    | _ => r
    end.

(** Events put in front of the trace of a run. *)
Definition after {A} (es : list event) (r : run A) : run A :=
  mkRun (out r) (remaining r) (es ++ trace r).

(* ===================================================================== *)
(** ** annotate_dataset.py *)
(* ===================================================================== *)

Section Annotate.

(** [FidesKey.validate] of [fideslang.models]: the key-syntax grammar, as the
    test deciding whether [FidesValidationError] is raised. *)
Variable fides_key_grammar : str -> bool.

(** The result of a call that returns [None] or raises. *)
Definition FidesKey_validate (value : str) : option exn :=
  if fides_key_grammar value then None else Some FidesValidationError.

Fixpoint validate_data_categories (categories valid_categories : list str)
  : option exn :=
  match categories with
  | [] => None
  | category :: categories' =>
      match FidesKey_validate category with
      | Some e => Some e
      | None =>
          if negb (str_in category valid_categories) then Some ValueError
          else validate_data_categories categories' valid_categories
      end
  end.

(** [[input.strip() for input in response.split(",")]] *)
Definition parse_response (response : str) : list str :=
  map strip (split comma response).

(** The prompt loop, by recursion on the lines the operator still has: every
    call reads exactly one.  Both recursive calls leave [validate] at its
    default, [True]. *)
Fixpoint get_data_categories_annotation_on
    (member : dataset_member) (valid_categories : list str) (validate : bool)
    (lines : list str) (oks : list bool) : run (list str) :=
  match lines with
  | [] => mkRun Blocked (mkOperator [] oks) [Prompt member]
  | line :: lines' =>
      let user_response := parse_response line in
      after [Prompt member]
        (if strs_eqb user_response [py "s"] then
           mkRun (Return []) (mkOperator lines' oks) []
         else if strs_eqb user_response [py "q"] then
           match oks with
           | [] => mkRun Blocked (mkOperator lines' []) [Confirm]
           | true :: oks' =>
               mkRun (Raise AnnotationAbortError) (mkOperator lines' oks') [Confirm]
           | false :: oks' =>
               after [Confirm]
                 (get_data_categories_annotation_on
                    member valid_categories true lines' oks')
           end
         else if validate then
           match validate_data_categories user_response valid_categories with
           | Some FidesValidationError | Some ValueError =>
               after [Secho (MsgInvalid user_response)]
                 (get_data_categories_annotation_on
                    member valid_categories true lines' oks)
           | Some e => mkRun (Raise e) (mkOperator lines' oks) []
           | None => mkRun (Return user_response) (mkOperator lines' oks) []
           end
         else mkRun (Return user_response) (mkOperator lines' oks) [])
  end.

Definition get_data_categories_annotation
    (member : dataset_member) (valid_categories : list str) (validate : bool)
  : M (list str) :=
  fun op =>
    get_data_categories_annotation_on member valid_categories validate
      (answers op) (confirms op).

(** In-place assignments to [data_categories]. *)
Definition set_field_categories (f : DatasetField) (cats : list str) :=
  mkField (field_name f) (field_description f) (Some cats).

Definition set_collection_categories (c : DatasetCollection) (cats : list str) :=
  mkCollection (collection_name c) (collection_description c) (Some cats) (fields c).

Definition set_dataset_categories (d : Dataset) (cats : list str) :=
  mkDataset (fides_key d) (name d) (description d) (Some cats) (collections d).

(** The objects of [table.fields] and of [current_dataset.collections] are
    mutated while the lists are walked; the walk hands back the list with the
    objects as the loop left them. *)
Definition with_fields (c : DatasetCollection) (fs : list DatasetField) :=
  mkCollection (collection_name c) (collection_description c)
    (collection_data_categories c) fs.

Definition with_collections (d : Dataset) (cs : list DatasetCollection) :=
  mkDataset (fides_key d) (name d) (description d) (data_categories d) cs.

(** How a [for] loop was left: by running out of items or by [break]. *)
Inductive ended := Exhausted | Broke.

Section Walk.

Variable existing_categories : list str.
Variables annotate_all validate : bool.

(** [for field in table.fields]: a step gives the field as it now is, or
    [None] for [break]. *)
Fixpoint annotate_fields (table : DatasetCollection) (flds : list DatasetField)
  : M (list DatasetField) :=
  match flds with
  | [] => ret []
  | field :: flds' =>
      if negb (truthy (field_data_categories field)) then
        secho (MsgFieldNoCategories (collection_name table) (field_name field)) ;;;
        step <- try_except_abort
                  (user_categories <-
                     get_data_categories_annotation
                       (MField field) existing_categories validate ;;
                   secho (MsgSetting (collection_name table) (field_name field)
                                     user_categories) ;;;
                   ret (Some (set_field_categories field user_categories)))
                  (ret None) ;;
        match step with
        | None => ret (field :: flds')
        | Some field' =>
            flds'' <- annotate_fields table flds' ;;
            ret (field' :: flds'')
        end
      else
        flds'' <- annotate_fields table flds' ;;
        ret (field :: flds'')
  end.

(** [for table in current_dataset.collections] *)
Fixpoint annotate_tables (tables : list DatasetCollection)
  : M (list DatasetCollection) :=
  match tables with
  | [] => ret []
  | table :: tables' =>
      secho (MsgAnnotatingTable (collection_name table)) ;;;
      step <- (if annotate_all && negb (truthy (collection_data_categories table))
               then
                 try_except_abort
                   (secho (MsgTableNoCategories (collection_name table)) ;;;
                    cats <- get_data_categories_annotation
                              (MCollection table) existing_categories validate ;;
                    ret (Some (set_collection_categories table cats)))
                   (ret None)
               else ret (Some table)) ;;
      match step with
      | None => ret (table :: tables')
      | Some table' =>
          flds' <- annotate_fields table' (fields table') ;;
          tables'' <- annotate_tables tables' ;;
          ret (with_fields table' flds' :: tables'')
      end
  end.

(** The body of [for dataset in datasets]: the dataset object as the body
    left it, and whether the body ran [break]. *)
Definition annotate_dataset_body (dataset : Dataset) : M (Dataset * ended) :=
  let current_dataset := dataset in
  secho (MsgAnnotatingDataset (name current_dataset)) ;;;
  step <- (if annotate_all && negb (truthy (data_categories current_dataset))
           then
             try_except_abort
               (secho (MsgDatabaseNoCategories (name current_dataset)) ;;;
                cats <- get_data_categories_annotation
                          (MDataset current_dataset) existing_categories validate ;;
                ret (Some (set_dataset_categories current_dataset cats)))
               (ret None)
           else ret (Some current_dataset)) ;;
  match step with
  | None => ret (current_dataset, Broke)
  | Some current_dataset' =>
      tables' <- annotate_tables (collections current_dataset') ;;
      ret (with_collections current_dataset' tables', Exhausted)
  end.

(** [for dataset in datasets], threading the local variable
    [current_dataset], unbound ([None]) before the first iteration. *)
Fixpoint walk_datasets (datasets : list Dataset) (current_dataset : option Dataset)
  : M (option Dataset * ended) :=
  match datasets with
  | [] => ret (current_dataset, Exhausted)
  | dataset :: datasets' =>
      r <- annotate_dataset_body dataset ;;
      match snd r with
      | Broke => ret (Some (fst r), Broke)
      | Exhausted => walk_datasets datasets' (Some (fst r))
      end
  end.

End Walk.

(** [core_parse.ingest_manifests(dataset_file)["dataset"]], each item already
    built into a [Dataset]. *)
Variable ingest_manifests : str -> list Dataset.

(** The [fides_key] of every resource listed for a resource type. *)
Variable list_resource : str -> list str.

(** [manifests.write_manifest] *)
Definition write_manifest (file_name : str) (output : list Dataset)
    (resource_type : str) : M unit :=
  emit (WriteManifest file_name output resource_type).

(** [current_dataset.dict()] is kept as the record itself. *)
Definition annotate_dataset (dataset_file resource_type : str)
    (annotate_all validate : bool) : M unit :=
  let output_dataset : list Dataset := [] in
  secho (MsgVisualizer resource_type) ;;;
  let datasets := ingest_manifests dataset_file in
  let existing_categories := list_resource resource_type in
  r <- walk_datasets existing_categories annotate_all validate datasets None ;;
  output_dataset <-
    match snd r with
    | Exhausted =>
        (* the [else] of the [for]: runs when the loop was not left by [break] *)
        match fst r with
        | Some current_dataset => ret (output_dataset ++ [current_dataset])
        | None => raise UnboundLocalError
        end
    | Broke => ret output_dataset
    end ;;
  write_manifest dataset_file output_dataset (py "dataset").

End Annotate.

(* ===================================================================== *)
(** ** generate_dataset.py *)
(* ===================================================================== *)

(** A Python [dict] with [str] keys: the items in insertion order, every key
    once. *)
Definition dict (V : Type) := list (str * V).

Definition keys {V} (d : dict V) : list str := map fst d.

(** [d[k]], [None] standing for [KeyError]. *)
Fixpoint dict_get {V} (d : dict V) (k : str) : option V :=
  match d with
  | [] => None
  | (k', v') :: d' => if str_eqb k' k then Some v' else dict_get d' k
  end.

(** [d[k] = v]: a key already present keeps its place. *)
Fixpoint dict_set {V} (d : dict V) (k : str) (v : V) : dict V :=
  match d with
  | [] => [(k, v)]
  | (k', v') :: d' =>
      if str_eqb k' k then (k', v) :: d' else (k', v') :: dict_set d' k v
  end.

(** One entry of [inspector.get_columns]. *)
Record column := mkColumn {
  column_name : str;
  column_type : str
}.

(** What [sqlalchemy.inspect(engine)] answers. *)
Record Inspector := mkInspector {
  get_schema_names : list str;
  get_table_names : str -> list str;
  get_columns : str -> str -> list column
}.

Record Engine := mkEngine {
  dialect_name : str;
  inspect : Inspector
}.

Definition excluded_schemas (engine : Engine) : list str :=
  let excluded := [py "information_schema"] in
  if str_eqb (dialect_name engine) (py "mysql") then
    excluded ++ [py "mysql"; py "performance_schema"; py "sys"]
  else excluded.

(** [f"{schema}.{table}"] *)
Definition qualified (schema table : str) : str := schema ++ py "." ++ table.

(** [for table in inspector.get_table_names(schema=schema)]: the entry
    [db_tables[schema]] is looked up and the dict found there is updated. *)
Fixpoint fill_tables (inspector : Inspector) (schema : str) (tables : list str)
    (db_tables : dict (dict (list str))) : option (dict (dict (list str))) :=
  match tables with
  | [] => Some db_tables
  | table :: tables' =>
      match dict_get db_tables schema with
      | None => None
      | Some of_schema =>
          fill_tables inspector schema tables'
            (dict_set db_tables schema
               (dict_set of_schema (qualified schema table)
                  (map column_name (get_columns inspector table schema))))
      end
  end.

(** [for schema in schemas] *)
Fixpoint fill_schemas (inspector : Inspector) (schemas : list str)
    (db_tables : dict (dict (list str))) : option (dict (dict (list str))) :=
  match schemas with
  | [] => Some db_tables
  | schema :: schemas' =>
      match fill_tables inspector schema (get_table_names inspector schema)
              (dict_set db_tables schema []) with
      | None => None
      | Some db_tables' => fill_schemas inspector schemas' db_tables'
      end
  end.

Definition get_db_collections_and_fields (engine : Engine)
  : option (dict (dict (list str))) :=
  let inspector := inspect engine in
  let schemas :=
    filter (fun schema => negb (str_in schema (excluded_schemas engine)))
           (get_schema_names inspector) in
  fill_schemas inspector schemas [].

Definition create_dataset_collections (db_tables : dict (dict (list str)))
  : list Dataset :=
  map (fun '(schema_name, schema) =>
         mkDataset schema_name schema_name
           (py "Fides Generated Description for Schema: " ++ schema_name)
           None
           (map (fun '(table_name, table) =>
                   mkCollection table_name
                     (py "Fides Generated Description for Table: " ++ table_name)
                     None
                     (map (fun column =>
                             mkField column
                               (py "Fides Generated Description for Column: "
                                   ++ column)
                               (Some []))
                          table))
                schema))
      db_tables.

(** What [generate_dataset] does to the outside: the manifest it writes and
    the line [echo_green] prints,
    [f"Successfully generated dataset manifest: {file_name}"]. *)
Inductive generator_event :=
| ManifestWritten (file_name : str) (output : list Dataset) (resource_type : str)
| EchoGreen (file_name : str).

(** [generate_dataset], with [get_db_engine] of [.utils] as a parameter;
    [None] stands for a [KeyError] out of [get_db_collections_and_fields].
    [[i.dict() for i in collections]] is kept as the list of records. *)
Definition generate_dataset (get_db_engine : str -> Engine)
    (connection_string file_name : str) : option (list generator_event) :=
  let db_engine := get_db_engine connection_string in
  match get_db_collections_and_fields db_engine with
  | None => None
  | Some db_collections =>
      let collections := create_dataset_collections db_collections in
      Some [ManifestWritten file_name collections (py "dataset");
            EchoGreen file_name]
  end.

(* ===================================================================== *)
(** ** Predicates and fixtures used by the statements *)
(* ===================================================================== *)

(** [sat P Q m]: whatever the operator does, every event [m] emits satisfies
    [P] and a value [m] returns satisfies [Q]. *)
Definition sat {A} (P : event -> Prop) (Q : A -> Prop) (m : M A) : Prop :=
  forall op, Forall P (trace (m op)) /\
             (forall a, out (m op) = Return a -> Q a).

(** [old] is kept by [new]: a non-empty label set is still the same one. *)
Definition keeps (old new : option (list str)) : Prop :=
  truthy old = true -> new = old.

Definition field_kept (f f' : DatasetField) : Prop :=
  field_name f' = field_name f /\
  field_description f' = field_description f /\
  keeps (field_data_categories f) (field_data_categories f').

Definition collection_kept (c c' : DatasetCollection) : Prop :=
  collection_name c' = collection_name c /\
  collection_description c' = collection_description c /\
  keeps (collection_data_categories c) (collection_data_categories c') /\
  Forall2 field_kept (fields c) (fields c').

Definition dataset_kept (d d' : Dataset) : Prop :=
  fides_key d' = fides_key d /\
  name d' = name d /\
  description d' = description d /\
  keeps (data_categories d) (data_categories d') /\
  Forall2 collection_kept (collections d) (collections d').

(** What a walk may emit: prompts for entities that [good] admits, that have
    no labels and that are fields unless annotate-all is on; never a
    write. *)
Definition walk_event (annotate_all : bool) (good : dataset_member -> Prop)
    (e : event) : Prop :=
  match e with
  | Prompt m =>
      good m /\ truthy (member_categories m) = false /\
      (is_field m = true \/ annotate_all = true)
  | WriteManifest _ _ _ => False
  | _ => True
  end.

(** [m] is an entity of one of the datasets. *)
Definition member_of (datasets : list Dataset) (m : dataset_member) : Prop :=
  match m with
  | MDataset d => In d datasets
  | MCollection c => exists d, In d datasets /\ In c (collections d)
  | MField f =>
      exists d c, In d datasets /\ In c (collections d) /\ In f (fields c)
  end.

(** The prompts of a trace, in order. *)
Fixpoint prompts (tr : list event) : list dataset_member :=
  match tr with
  | [] => []
  | Prompt m :: tr' => m :: prompts tr'
  | _ :: tr' => prompts tr'
  end.

(** The prompts and confirmations of a trace, in order. *)
Definition dialogue (tr : list event) : list event :=
  filter (fun e => match e with Prompt _ | Confirm => true | _ => false end) tr.

(** The manifests written by a trace, in order. *)
Fixpoint written (tr : list event) : list (list Dataset) :=
  match tr with
  | [] => []
  | WriteManifest _ output _ :: tr' => output :: written tr'
  | _ :: tr' => written tr'
  end.

(** The members a walk prompts for when nothing is aborted, in walk order. *)
Definition fields_to_prompt (c : DatasetCollection) : list dataset_member :=
  map MField (filter (fun f => negb (truthy (field_data_categories f))) (fields c)).

Definition collection_to_prompt (annotate_all : bool) (c : DatasetCollection)
  : list dataset_member :=
  (if annotate_all && negb (truthy (collection_data_categories c))
   then [MCollection c] else [])
  ++ fields_to_prompt c.

Definition dataset_to_prompt (annotate_all : bool) (d : Dataset)
  : list dataset_member :=
  (if annotate_all && negb (truthy (data_categories d))
   then [MDataset d] else [])
  ++ flat_map (collection_to_prompt annotate_all) (collections d).

Definition to_prompt (annotate_all : bool) (datasets : list Dataset)
  : list dataset_member :=
  flat_map (dataset_to_prompt annotate_all) datasets.

(** What holds of the mapping while it is filled: every schema in it was
    listed by the inspector and is not excluded, and every table under a
    schema is keyed by its qualified name and holds its column names. *)
Definition well_filled (engine : Engine) (db_tables : dict (dict (list str)))
  : Prop :=
  let inspector := inspect engine in
  forall schema of_schema,
    In (schema, of_schema) db_tables ->
    (In schema (get_schema_names inspector)
     /\ ~ In schema (excluded_schemas engine))
    /\ forall key cols,
         In (key, cols) of_schema ->
         exists table,
           In table (get_table_names inspector schema)
           /\ key = qualified schema table
           /\ cols = map column_name (get_columns inspector table schema).

(** A field built for a column: named after it, with a description that is
    not empty and with an empty list of labels. *)
Definition field_built (column : str) (f : DatasetField) : Prop :=
  field_name f = column /\
  field_description f <> [] /\
  field_data_categories f = Some [].

(** A collection built for a table: as many fields as columns, one each. *)
Definition collection_built (item : str * list str) (c : DatasetCollection)
  : Prop :=
  collection_name c = fst item /\
  length (fields c) = length (snd item) /\
  Forall2 field_built (snd item) (fields c).

(** A dataset built for a schema: as many collections as tables, one each. *)
Definition dataset_built (item : str * dict (list str)) (d : Dataset) : Prop :=
  fides_key d = fst item /\
  name d = fst item /\
  length (collections d) = length (snd item) /\
  Forall2 collection_built (snd item) (collections d).

(** A line that the prompt loop reads as skip. *)
Definition is_skip (line : str) : Prop := strip line = py "s".

(** [skips Q m expected]: fed lines that all skip, [m] returns a value
    satisfying [Q], has read one line per member of [expected] and no
    confirmation, and has prompted for exactly [expected], in order. *)
Definition skips {A} (Q : A -> Prop) (m : M A) (expected : list dataset_member)
  : Prop :=
  forall lines oks,
    Forall is_skip lines -> length expected <= length lines ->
    exists a tr,
      m (mkOperator lines oks)
      = mkRun (Return a) (mkOperator (skipn (length expected) lines) oks) tr
      /\ prompts tr = expected /\ Q a.

Module Fixture.

Definition label : str := py "user.name".

Definition blank_field (n : string) : DatasetField :=
  mkField (py n) (py "a column") None.

Definition labelled_field (n : string) : DatasetField :=
  mkField (py n) (py "a column") (Some [label]).

Definition skipped_field (n : string) : DatasetField :=
  mkField (py n) (py "a column") (Some []).

Definition users : DatasetCollection :=
  mkCollection (py "users") (py "a table") None
    [blank_field "id"; blank_field "email"].

Definition orders : DatasetCollection :=
  mkCollection (py "orders") (py "a table") None [blank_field "total"].

Definition visits : DatasetCollection :=
  mkCollection (py "visits") (py "a table") None
    [blank_field "page"; blank_field "ip"].

Definition clicks : DatasetCollection :=
  mkCollection (py "clicks") (py "a table") None [blank_field "target"].

Definition shop : Dataset :=
  mkDataset (py "shop") (py "shop") (py "first dataset") None [users; orders].

Definition web : Dataset :=
  mkDataset (py "web") (py "web") (py "second dataset") None [visits; clicks].

(** [web] with [label] on the dataset, its collections and its fields. *)
Definition web_labelled : Dataset :=
  mkDataset (py "web") (py "web") (py "second dataset") (Some [label])
    [mkCollection (py "visits") (py "a table") (Some [label])
       [labelled_field "page"; labelled_field "ip"];
     mkCollection (py "clicks") (py "a table") (Some [label])
       [labelled_field "target"]].

(** [web] after every field prompt was skipped. *)
Definition web_skipped : Dataset :=
  mkDataset (py "web") (py "web") (py "second dataset") None
    [mkCollection (py "visits") (py "a table") None
       [skipped_field "page"; skipped_field "ip"];
     mkCollection (py "clicks") (py "a table") None
       [skipped_field "target"]].

Definition manifest (dataset_file : str) : list Dataset := [shop; web].

Definition categories (resource_type : str) : list str := [label].

(** A key grammar for the fixtures: letters, digits, [_], [.] and [-], at
    least one. *)
Definition key_char (c : N) : bool :=
  (((48 <=? c) && (c <=? 57)) || ((65 <=? c) && (c <=? 90))
   || ((97 <=? c) && (c <=? 122)) || (c =? 95) || (c =? 46) || (c =? 45))%N.

Definition key_grammar (s : str) : bool :=
  match s with
  | [] => false
  | _ => forallb key_char s
  end.

Definition file : str := py "dataset.yml".
Definition resource : str := py "data_category".

(** An operator who answers every prompt with the one valid label. *)
Definition labelling_operator : operator :=
  mkOperator (repeat (py " user.name") 12) [].

(** An operator who labels the first field, quits at the second and confirms,
    and skips whatever is asked after that. *)
Definition quitting_operator : operator :=
  mkOperator ([label; py "q"] ++ repeat (py "s") 4) [true].

(** The same operator, with nothing to say after the confirmed quit. *)
Definition silent_quitting_operator : operator :=
  mkOperator [label; py "q"] [true].

(** An operator who labels everything of the first dataset and confirms a
    quit at the prompt for the second. *)
Definition late_quitting_operator : operator :=
  mkOperator (repeat label 6 ++ [py "q"]) [true].

(** An operator who labels the first dataset, quits at its first collection
    and confirms, and skips whatever is asked after that. *)
Definition table_quitting_operator : operator :=
  mkOperator ([label; py "q"] ++ repeat (py "s") 6) [true].

(** An operator who asks to quit, declines, and then types an unknown
    label before skipping. *)
Definition hesitant_operator : operator :=
  mkOperator [py "q"; py "bogus"; py "s"] [false].

Definition mysql_inspector : Inspector :=
  mkInspector
    [py "information_schema"; py "mysql"; py "shop"; py "performance_schema";
     py "sys"]
    (fun schema => [py "users"; py "orders"])
    (fun table schema => [mkColumn (py "id") (py "INTEGER");
                          mkColumn (py "email") (py "VARCHAR")]).

Definition mysql_engine : Engine := mkEngine (py "mysql") mysql_inspector.

End Fixture.

(* ===================================================================== *)
(** ** Further notions used by the statements *)
(* ===================================================================== *)

(** The column names the inspector gives for a table. *)
Definition columns_of (engine : Engine) (schema table : str) : list str :=
  map column_name (get_columns (inspect engine) table schema).

(** The tables of a schema as the mapping holds them when no table is listed
    twice: qualified name and column names, in inspector order. *)
Definition tables_of (engine : Engine) (schema : str) : dict (list str) :=
  map (fun table => (qualified schema table, columns_of engine schema table))
      (get_table_names (inspect engine) schema).

(** The dict that assigning each table of a schema in turn leaves, starting
    from the empty dict. *)
Definition tables_assigned (engine : Engine) (schema : str) : dict (list str) :=
  fold_left
    (fun of_schema table =>
       dict_set of_schema (qualified schema table)
         (columns_of engine schema table))
    (get_table_names (inspect engine) schema) [].

(** The schemas the inspector lists that are not excluded, in its order. *)
Definition kept_schemas (engine : Engine) : list str :=
  filter (fun schema => negb (str_in schema (excluded_schemas engine)))
         (get_schema_names (inspect engine)).

(** The names read back from a list of datasets. *)
Definition names_of_datasets (datasets : list Dataset) : dict (dict (list str)) :=
  map (fun d =>
         (fides_key d,
          map (fun c => (collection_name c, map field_name (fields c)))
              (collections d)))
      datasets.

(** Every field of a list of datasets, in walk order. *)
Definition all_fields (datasets : list Dataset) : list DatasetField :=
  flat_map fields (flat_map collections datasets).

(** Every dataset, collection and field of a list of datasets, in walk
    order. *)
Definition all_members (datasets : list Dataset) : list dataset_member :=
  flat_map
    (fun d =>
       MDataset d
       :: flat_map (fun c => MCollection c :: map MField (fields c))
            (collections d))
    datasets.


(** The list passes the validator. *)
Definition all_valid (grammar : str -> bool) (valid_categories : list str)
    (cats : list str) : Prop :=
  Forall (fun c => grammar c = true /\ In c valid_categories) cats.

(** A label set after annotation under validation: the one there was, or,
    where there was none, a list that is empty or passes the validator. *)
Definition labels_entered (grammar : str -> bool) (valid_categories : list str)
    (old new : option (list str)) : Prop :=
  new = old \/
  (truthy old = false /\
   exists cats, new = Some cats /\ all_valid grammar valid_categories cats).

Definition field_entered (grammar : str -> bool) (valid_categories : list str)
    (f f' : DatasetField) : Prop :=
  field_name f' = field_name f /\
  labels_entered grammar valid_categories
    (field_data_categories f) (field_data_categories f').

Definition collection_entered (grammar : str -> bool)
    (valid_categories : list str) (c c' : DatasetCollection) : Prop :=
  collection_name c' = collection_name c /\
  labels_entered grammar valid_categories
    (collection_data_categories c) (collection_data_categories c') /\
  Forall2 (field_entered grammar valid_categories) (fields c) (fields c').

Definition dataset_entered (grammar : str -> bool) (valid_categories : list str)
    (d d' : Dataset) : Prop :=
  fides_key d' = fides_key d /\
  labels_entered grammar valid_categories
    (data_categories d) (data_categories d') /\
  Forall2 (collection_entered grammar valid_categories)
    (collections d) (collections d').


(** [quiet Q m]: whatever the operator holds, [m] returns a value satisfying
    [Q] without prompting and without reading anything. *)
Definition quiet {A} (Q : A -> Prop) (m : M A) : Prop :=
  forall op, exists a tr,
    m op = mkRun (Return a) op tr /\ prompts tr = [] /\ written tr = [] /\ Q a.

Module Sample.

(** An inspector for a PostgreSQL database with two schemas of its own. *)
Definition postgres_inspector : Inspector :=
  mkInspector
    [py "information_schema"; py "public"; py "audit"]
    (fun schema => if str_eqb schema (py "public")
                   then [py "users"; py "orders"] else [py "log"])
    (fun table schema => if str_eqb table (py "users")
                         then [mkColumn (py "id") (py "INTEGER");
                               mkColumn (py "email") (py "VARCHAR")]
                         else [mkColumn (py "id") (py "INTEGER")]).

Definition postgres_engine : Engine := mkEngine (py "postgresql") postgres_inspector.

(** A dataset in which everything carries a label already. *)
Definition labelled_dataset : Dataset :=
  mkDataset (py "crm") (py "crm") (py "a dataset") (Some [Fixture.label])
    [mkCollection (py "people") (py "a table") (Some [Fixture.label])
       [Fixture.labelled_field "name"; Fixture.labelled_field "phone"]].

End Sample.

(* ===================================================================== *)
(** ** Strings *)
(* ===================================================================== *)

Lemma str_eqb_eq (a b : str) : str_eqb a b = true <-> a = b.
Proof.
  revert b; induction a as [|x a IH]; intros [|y b]; simpl;
    try (split; [discriminate | congruence]); try tauto.
  rewrite andb_true_iff, N.eqb_eq, IH. split.
  - intros [-> ->]; reflexivity.
  - intros E; injection E; auto.
Qed.

Lemma str_eqb_refl (a : str) : str_eqb a a = true.
Proof. apply str_eqb_eq; reflexivity. Qed.

Lemma strs_eqb_eq (a b : list str) : strs_eqb a b = true <-> a = b.
Proof.
  revert b; induction a as [|x a IH]; intros [|y b]; simpl;
    try (split; [discriminate | congruence]); try tauto.
  rewrite andb_true_iff, str_eqb_eq, IH. split.
  - intros [-> ->]; reflexivity.
  - intros E; injection E; auto.
Qed.

Lemma str_in_In (x : str) (xs : list str) : str_in x xs = true <-> In x xs.
Proof.
  unfold str_in. rewrite existsb_exists. split.
  - intros [y [Hy E]]. apply str_eqb_eq in E. subst; assumption.
  - intros H. exists x. split; [assumption | apply str_eqb_refl].
Qed.

Lemma str_in_false (x : str) (xs : list str) : str_in x xs = false <-> ~ In x xs.
Proof.
  rewrite <- str_in_In. destruct (str_in x xs); split; congruence.
Qed.

(** What [lstrip] removes is a run of white space in front. *)
Lemma lstrip_prefix (s : str) :
  exists l, s = l ++ lstrip s /\ Forall (fun c => isspace c = true) l.
Proof.
  induction s as [|c s [l [E F]]]; simpl.
  - exists []; split; [reflexivity | constructor].
  - destruct (isspace c) eqn:W.
    + exists (c :: l); split; [simpl; congruence | constructor; assumption].
    + exists []; split; [reflexivity | constructor].
Qed.

Lemma rstrip_suffix (s : str) :
  exists t, s = rstrip s ++ t /\ Forall (fun c => isspace c = true) t.
Proof.
  unfold rstrip. destruct (lstrip_prefix (rev s)) as [l [E F]].
  exists (rev l). split.
  - rewrite <- rev_app_distr, <- E, rev_involutive. reflexivity.
  - apply Forall_rev; assumption.
Qed.

(** A string is its [strip] between two runs of white space. *)
Lemma strip_between (s : str) :
  exists l t, s = l ++ strip s ++ t /\
              Forall (fun c => isspace c = true) l /\
              Forall (fun c => isspace c = true) t.
Proof.
  destruct (lstrip_prefix s) as [l [El Fl]].
  destruct (rstrip_suffix (lstrip s)) as [t [Et Ft]].
  exists l, t. unfold strip. rewrite <- Et. auto.
Qed.

Lemma split_without_sep (sep : N) (s : str) :
  ~ In sep s -> split sep s = [s].
Proof.
  induction s as [|c s IH]; simpl; intros H; [reflexivity|].
  destruct (N.eqb_spec c sep) as [E|E]; [exfalso; auto|].
  rewrite IH by tauto. reflexivity.
Qed.

(** A response whose trimmed content is the comma-free word [w] parses to
    the one-item list [[w]]. *)
Lemma parse_response_word (line w : str) :
  strip line = w -> ~ In comma w -> parse_response line = [w].
Proof.
  intros E Hw. unfold parse_response.
  destruct (strip_between line) as [l [t [D [Fl Ft]]]].
  assert (Hc : ~ In comma line).
  { rewrite D, E. rewrite !in_app_iff. intros [H|[H|H]]; [|tauto|].
    - rewrite Forall_forall in Fl. apply Fl in H. discriminate H.
    - rewrite Forall_forall in Ft. apply Ft in H. discriminate H. }
  rewrite (@split_without_sep comma line Hc). simpl. rewrite E. reflexivity.
Qed.

Lemma parse_response_s (line : str) :
  strip line = py "s" -> parse_response line = [py "s"].
Proof.
  intros E. apply parse_response_word; [assumption|].
  simpl. intros [H|[]]. discriminate H.
Qed.

Lemma parse_response_q (line : str) :
  strip line = py "q" -> parse_response line = [py "q"].
Proof.
  intros E. apply parse_response_word; [assumption|].
  simpl. intros [H|[]]. discriminate H.
Qed.

(* ===================================================================== *)
(** ** Category Validator *)
(* ===================================================================== *)

Section ValidatorFacts.

Variable grammar : str -> bool.

Lemma validate_ok_iff (categories valid_categories : list str) :
  validate_data_categories grammar categories valid_categories = None <->
  Forall (fun c => grammar c = true /\ In c valid_categories) categories.
Proof.
  induction categories as [|c cs IH]; simpl.
  - split; [constructor | reflexivity].
  - unfold FidesKey_validate.
    destruct (grammar c) eqn:G.
    + destruct (str_in c valid_categories) eqn:I; simpl.
      * rewrite IH. apply str_in_In in I. split.
        -- intros F; constructor; auto.
        -- intros F; inversion F; assumption.
      * apply str_in_false in I. split; [discriminate|].
        intros F; inversion F; tauto.
    + split; [discriminate|]. intros F; inversion F; subst.
      destruct H1 as [H1 _]. congruence.
Qed.

(** The validator raises nothing but the two errors the prompt loop
    handles. *)
Lemma validate_raises (categories valid_categories : list str) (e : exn) :
  validate_data_categories grammar categories valid_categories = Some e ->
  e = FidesValidationError \/ e = ValueError.
Proof.
  induction categories as [|c cs IH]; simpl; [discriminate|].
  unfold FidesKey_validate. destruct (grammar c).
  - destruct (str_in c valid_categories); simpl; [exact IH|].
    intros E; injection E; auto.
  - intros E; injection E; auto.
Qed.

(** C4: [validate_data_categories] returns without raising exactly when
    every candidate satisfies the key grammar and is in the reference list;
    one candidate failing either test makes the call raise. *)
Theorem validate_data_categories_all_or_nothing
    (categories valid_categories : list str) :
  (validate_data_categories grammar categories valid_categories = None <->
   Forall (fun c => grammar c = true /\ In c valid_categories) categories)
  /\
  (forall c, In c categories ->
             ~ (grammar c = true /\ In c valid_categories) ->
             exists e, validate_data_categories grammar categories
                         valid_categories = Some e
                       /\ (e = FidesValidationError \/ e = ValueError)).
Proof.
  split; [apply validate_ok_iff|].
  intros c Hc Hbad.
  destruct (validate_data_categories grammar categories valid_categories)
    as [e|] eqn:V.
  - exists e. split; [reflexivity | eapply validate_raises; eassumption].
  - exfalso. apply validate_ok_iff in V. rewrite Forall_forall in V. auto.
Qed.

End ValidatorFacts.

Lemma validate_data_categories_all_or_nothing_witness :
  In (py "no such key") [Fixture.label; py "no such key"] /\
  ~ (Fixture.key_grammar (py "no such key") = true
     /\ In (py "no such key") [Fixture.label]) /\
  exists e,
    validate_data_categories Fixture.key_grammar
      [Fixture.label; py "no such key"] [Fixture.label] = Some e
    /\ (e = FidesValidationError \/ e = ValueError).
Proof.
  assert (Hin : In (py "no such key") [Fixture.label; py "no such key"])
    by (right; left; reflexivity).
  assert (Hbad : ~ (Fixture.key_grammar (py "no such key") = true
                    /\ In (py "no such key") [Fixture.label]))
    by (intros [H _]; vm_compute in H; discriminate H).
  split; [exact Hin | split; [exact Hbad|]].
  exact (proj2 (validate_data_categories_all_or_nothing Fixture.key_grammar
                  [Fixture.label; py "no such key"] [Fixture.label])
           (py "no such key") Hin Hbad).
Defined.

(* ===================================================================== *)
(** ** Prompt Loop *)
(* ===================================================================== *)

Section PromptFacts.

Variable grammar : str -> bool.
Variable member : dataset_member.
Variable valid_categories : list str.

(** One call of the loop on a script with a line left. *)
Lemma prompt_step (validate : bool) (line : str) (lines : list str)
    (oks : list bool) :
  get_data_categories_annotation grammar member valid_categories validate
    (mkOperator (line :: lines) oks)
  = let user_response := parse_response line in
    after [Prompt member]
      (if strs_eqb user_response [py "s"] then
         mkRun (Return []) (mkOperator lines oks) []
       else if strs_eqb user_response [py "q"] then
         match oks with
         | [] => mkRun Blocked (mkOperator lines []) [Confirm]
         | true :: oks' =>
             mkRun (Raise AnnotationAbortError) (mkOperator lines oks') [Confirm]
         | false :: oks' =>
             after [Confirm]
               (get_data_categories_annotation grammar member valid_categories
                  true (mkOperator lines oks'))
         end
       else if validate then
         match validate_data_categories grammar user_response
                 valid_categories with
         | Some FidesValidationError | Some ValueError =>
             after [Secho (MsgInvalid user_response)]
               (get_data_categories_annotation grammar member valid_categories
                  true (mkOperator lines oks))
         | Some e => mkRun (Raise e) (mkOperator lines oks) []
         | None => mkRun (Return user_response) (mkOperator lines oks) []
         end
       else mkRun (Return user_response) (mkOperator lines oks) []).
Proof. reflexivity. Qed.

Lemma strs_eqb_neq (a b : list str) : a <> b -> strs_eqb a b = false.
Proof.
  intros H. destruct (strs_eqb a b) eqn:E; [|reflexivity].
  apply strs_eqb_eq in E. contradiction.
Qed.

Lemma prompt_skip (validate : bool) (line : str) (lines : list str)
    (oks : list bool) :
  parse_response line = [py "s"] ->
  get_data_categories_annotation grammar member valid_categories validate
    (mkOperator (line :: lines) oks)
  = mkRun (Return []) (mkOperator lines oks) [Prompt member].
Proof.
  intros E. rewrite prompt_step, E. reflexivity.
Qed.

Lemma prompt_quit_confirmed (validate : bool) (line : str) (lines : list str)
    (oks : list bool) :
  parse_response line = [py "q"] ->
  get_data_categories_annotation grammar member valid_categories validate
    (mkOperator (line :: lines) (true :: oks))
  = mkRun (Raise AnnotationAbortError) (mkOperator lines oks)
      [Prompt member; Confirm].
Proof.
  intros E. rewrite prompt_step, E. reflexivity.
Qed.

(** A declined quit asks again, and the new call validates whatever the
    caller had chosen. *)
Lemma prompt_quit_declined (validate : bool) (line : str) (lines : list str)
    (oks : list bool) :
  parse_response line = [py "q"] ->
  get_data_categories_annotation grammar member valid_categories validate
    (mkOperator (line :: lines) (false :: oks))
  = after [Prompt member; Confirm]
      (get_data_categories_annotation grammar member valid_categories true
         (mkOperator lines oks)).
Proof.
  intros E. rewrite prompt_step, E. reflexivity.
Qed.

(** Without validation, a first response that is neither skip nor quit is
    returned as parsed. *)
Lemma prompt_unvalidated (line : str) (lines : list str) (oks : list bool) :
  parse_response line <> [py "s"] ->
  parse_response line <> [py "q"] ->
  get_data_categories_annotation grammar member valid_categories false
    (mkOperator (line :: lines) oks)
  = mkRun (Return (parse_response line)) (mkOperator lines oks)
      [Prompt member].
Proof.
  intros Hs Hq. rewrite prompt_step. cbv zeta.
  rewrite (strs_eqb_neq Hs), (strs_eqb_neq Hq). reflexivity.
Qed.

(** With validation, a response that is neither skip nor quit and passes
    the validator is returned as parsed. *)
Lemma prompt_valid (validate : bool) (line : str) (lines : list str)
    (oks : list bool) :
  parse_response line <> [py "s"] ->
  parse_response line <> [py "q"] ->
  validate_data_categories grammar (parse_response line) valid_categories
    = None ->
  get_data_categories_annotation grammar member valid_categories validate
    (mkOperator (line :: lines) oks)
  = mkRun (Return (parse_response line)) (mkOperator lines oks)
      [Prompt member].
Proof.
  intros Hs Hq V. rewrite prompt_step. cbv zeta.
  rewrite (strs_eqb_neq Hs), (strs_eqb_neq Hq), V.
  destruct validate; reflexivity.
Qed.

(** C6: a response whose trimmed content is [s] returns the empty list at
    once, whatever the validation setting; a response whose trimmed content
    is [q], once the quit is confirmed, raises [AnnotationAbortError]. *)
Theorem skip_returns_empty_and_confirmed_quit_aborts
    (validate : bool) (line : str) (lines : list str) (oks : list bool) :
  (strip line = py "s" ->
   get_data_categories_annotation grammar member valid_categories validate
     (mkOperator (line :: lines) oks)
   = mkRun (Return []) (mkOperator lines oks) [Prompt member])
  /\
  (strip line = py "q" ->
   get_data_categories_annotation grammar member valid_categories validate
     (mkOperator (line :: lines) (true :: oks))
   = mkRun (Raise AnnotationAbortError) (mkOperator lines oks)
       [Prompt member; Confirm]).
Proof.
  split; intros E.
  - apply prompt_skip, parse_response_s, E.
  - apply prompt_quit_confirmed, parse_response_q, E.
Qed.

End PromptFacts.

Lemma skip_returns_empty_and_confirmed_quit_aborts_witness :
  (strip (py "  s ") = py "s" /\
   get_data_categories_annotation Fixture.key_grammar
     (MField (Fixture.blank_field "id")) [Fixture.label] true
     (mkOperator [py "  s "; py "later"] [false])
   = mkRun (Return []) (mkOperator [py "later"] [false])
       [Prompt (MField (Fixture.blank_field "id"))])
  /\
  (strip (py " q ") = py "q" /\
   get_data_categories_annotation Fixture.key_grammar
     (MField (Fixture.blank_field "id")) [Fixture.label] false
     (mkOperator [py " q "; py "later"] [true; false])
   = mkRun (Raise AnnotationAbortError) (mkOperator [py "later"] [false])
       [Prompt (MField (Fixture.blank_field "id")); Confirm]).
Proof.
  split; (split; [reflexivity|]).
  - apply (proj1 (skip_returns_empty_and_confirmed_quit_aborts
                    Fixture.key_grammar (MField (Fixture.blank_field "id"))
                    [Fixture.label] true (py "  s ") [py "later"] [false])).
    reflexivity.
  - apply (proj2 (skip_returns_empty_and_confirmed_quit_aborts
                    Fixture.key_grammar (MField (Fixture.blank_field "id"))
                    [Fixture.label] false (py " q ") [py "later"] [false])).
    reflexivity.
Defined.

(** C5: with [validate=False], after a quit that the operator declines the
    loop calls itself with validation on: the unknown label [bogus] is put
    through the validator, rejected and asked for again, and the call returns
    what the operator enters next, not the parsed list [[bogus]]. *)
Theorem declined_quit_turns_validation_on
    (grammar : str -> bool) (member : dataset_member) :
  let r := get_data_categories_annotation grammar member [] false
             Fixture.hesitant_operator in
  r = mkRun (Return []) (mkOperator [] [])
        [Prompt member; Confirm; Prompt member;
         Secho (MsgInvalid [py "bogus"]); Prompt member]
  /\ out r <> Return (parse_response (py "bogus")).
Proof.
  assert (E : get_data_categories_annotation grammar member [] false
                Fixture.hesitant_operator
              = mkRun (Return []) (mkOperator [] [])
                  [Prompt member; Confirm; Prompt member;
                   Secho (MsgInvalid [py "bogus"]); Prompt member]).
  { unfold get_data_categories_annotation, Fixture.hesitant_operator.
    cbn. unfold FidesKey_validate.
    destruct (grammar _); reflexivity. }
  cbv zeta. rewrite E. split; [reflexivity | discriminate].
Qed.

(* ===================================================================== *)
(** ** Runs: what a computation emits and returns *)
(* ===================================================================== *)

Section SatRules.

Variable P : event -> Prop.

Lemma sat_ret {A} (Q : A -> Prop) (a : A) : Q a -> sat P Q (ret a).
Proof.
  intros H op. split; [constructor|].
  simpl. intros b E; injection E as <-; assumption.
Qed.

Lemma sat_raise {A} (Q : A -> Prop) (e : exn) : sat P Q (raise e).
Proof. intros op. split; [constructor | simpl; discriminate]. Qed.

Lemma sat_emit (Q : unit -> Prop) (e : event) : P e -> Q tt -> sat P Q (emit e).
Proof.
  intros He Hq op. split; [repeat constructor; assumption|].
  simpl. intros [] _. assumption.
Qed.

Lemma sat_bind {A B} (Q : A -> Prop) (R : B -> Prop) (m : M A) (k : A -> M B) :
  sat P Q m -> (forall a, Q a -> sat P R (k a)) -> sat P R (bind m k).
Proof.
  intros Hm Hk op. destruct (Hm op) as [Tm Rm]. unfold bind.
  destruct (out (m op)) as [a| |] eqn:E; simpl.
  - destruct (Hk a (Rm a eq_refl) (remaining (m op))) as [Tk Rk].
    split; [apply Forall_app; split; assumption | exact Rk].
  - split; [assumption | discriminate].
  - split; [assumption | discriminate].
Qed.

Lemma sat_try {A} (Q : A -> Prop) (body handler : M A) :
  sat P Q body -> sat P Q handler -> sat P Q (try_except_abort body handler).
Proof.
  intros Hb Hh op. destruct (Hb op) as [Tb Rb]. unfold try_except_abort.
  destruct (out (body op)) as [a|e|] eqn:E.
  - split; [assumption|]. rewrite E. exact Rb.
  - destruct e; try (split; [assumption | rewrite E; discriminate]).
    destruct (Hh (remaining (body op))) as [Th Rh]. simpl.
    split; [apply Forall_app; split; assumption | exact Rh].
  - split; [assumption | rewrite E; discriminate].
Qed.

Lemma sat_weaken {A} (Q Q' : A -> Prop) (m : M A) :
  sat P Q m -> (forall a, Q a -> Q' a) -> sat P Q' m.
Proof.
  intros H W op. destruct (H op) as [T R]. split; [assumption | auto].
Qed.

(** The prompt loop emits prompts for its member, confirmations and error
    messages, nothing else. *)
Lemma sat_prompt_loop (grammar : str -> bool) (member : dataset_member)
    (valid_categories : list str) (validate : bool) :
  P (Prompt member) -> P Confirm -> (forall r, P (Secho (MsgInvalid r))) ->
  sat P (fun _ => True)
    (get_data_categories_annotation grammar member valid_categories validate).
Proof.
  intros Hp Hc Hs op. split; [|trivial].
  destruct op as [lines oks]. unfold get_data_categories_annotation. simpl.
  revert validate oks.
  induction lines as [|line lines IH]; intros validate oks; simpl.
  - repeat constructor; assumption.
  - constructor; [assumption|].
    destruct (strs_eqb _ _); [constructor|].
    destruct (strs_eqb _ _).
    + destruct oks as [|[] oks]; simpl;
        [repeat constructor; assumption | repeat constructor; assumption |].
      constructor; [assumption | apply IH].
    + destruct validate; [|constructor].
      destruct (validate_data_categories _ _ _) as [[]|]; simpl;
        try constructor; auto.
Qed.

End SatRules.

(* ===================================================================== *)
(** ** Annotation Walker: what is asked and what is kept *)
(* ===================================================================== *)

Lemma keeps_refl (cats : option (list str)) : keeps cats cats.
Proof. intros _; reflexivity. Qed.

Lemma keeps_falsy (old new : option (list str)) :
  truthy old = false -> keeps old new.
Proof. unfold keeps. intros ->. discriminate. Qed.

Lemma field_kept_refl (f : DatasetField) : field_kept f f.
Proof. repeat split. Qed.

Lemma fields_kept_refl (fs : list DatasetField) : Forall2 field_kept fs fs.
Proof. induction fs; constructor; auto using field_kept_refl. Qed.

Lemma collection_kept_refl (c : DatasetCollection) : collection_kept c c.
Proof. repeat split. apply fields_kept_refl. Qed.

Lemma collections_kept_refl (cs : list DatasetCollection) :
  Forall2 collection_kept cs cs.
Proof. induction cs; constructor; auto using collection_kept_refl. Qed.

Lemma dataset_kept_refl (d : Dataset) : dataset_kept d d.
Proof. repeat split. apply collections_kept_refl. Qed.

Section WalkFacts.

Variable grammar : str -> bool.
Variable existing_categories : list str.
Variables annotate_all validate : bool.
Variable good : dataset_member -> Prop.

Lemma sat_secho {Q : unit -> Prop} (m : message) : Q tt -> sat (walk_event annotate_all good) Q (secho m).
Proof. intros H. apply sat_emit; [exact I | exact H]. Qed.

Lemma sat_prompt (member : dataset_member) :
  good member -> truthy (member_categories member) = false ->
  is_field member = true \/ annotate_all = true ->
  sat (walk_event annotate_all good) (fun _ => True)
    (get_data_categories_annotation grammar member existing_categories validate).
Proof.
  intros G F A. apply sat_prompt_loop; simpl; auto.
Qed.

Lemma annotate_fields_sat (table : DatasetCollection) (flds : list DatasetField) :
  (forall f, In f flds -> good (MField f)) ->
  sat (walk_event annotate_all good) (Forall2 field_kept flds)
    (annotate_fields grammar existing_categories validate table flds).
Proof.
  induction flds as [|field flds IH]; intros G; simpl.
  - apply sat_ret. constructor.
  - assert (IH' := IH (fun f H => G f (or_intror H))). clear IH.
    destruct (truthy (field_data_categories field)) eqn:T; simpl.
    + eapply sat_bind; [exact IH'|]. intros flds'' K.
      apply sat_ret. constructor; [apply field_kept_refl | exact K].
    + eapply sat_bind; [apply (sat_secho (Q := fun _ => True)); exact I|].
      intros _ _.
      eapply sat_bind with
        (Q := fun step => match step with
                          | Some f' => field_kept field f'
                          | None => True
                          end).
      * apply sat_try; [|apply sat_ret; exact I].
        eapply sat_bind;
          [apply sat_prompt; [apply G; left; reflexivity | exact T | left; reflexivity]|].
        intros cats _.
        eapply sat_bind; [apply (sat_secho (Q := fun _ => True)); exact I|].
        intros _ _. apply sat_ret.
        repeat split. apply keeps_falsy; exact T.
      * intros [f'|] K.
        -- eapply sat_bind; [exact IH'|]. intros flds'' K'.
           apply sat_ret. constructor; assumption.
        -- apply sat_ret. constructor;
             [apply field_kept_refl | apply fields_kept_refl].
Qed.

Lemma annotate_tables_sat (tables : list DatasetCollection) :
  (forall c, In c tables ->
             good (MCollection c) /\ forall f, In f (fields c) -> good (MField f)) ->
  sat (walk_event annotate_all good) (Forall2 collection_kept tables)
    (annotate_tables grammar existing_categories annotate_all validate tables).
Proof.
  induction tables as [|table tables IH]; intros G; simpl.
  - apply sat_ret. constructor.
  - assert (IH' := IH (fun c H => G c (or_intror H))). clear IH.
    destruct (G table (or_introl eq_refl)) as [Gt Gf].
    eapply sat_bind; [apply (sat_secho (Q := fun _ => True)); exact I|].
    intros _ _.
    eapply sat_bind with
      (Q := fun step => match step with
                        | Some t' =>
                            collection_name t' = collection_name table /\
                            collection_description t'
                              = collection_description table /\
                            keeps (collection_data_categories table)
                                  (collection_data_categories t') /\
                            fields t' = fields table
                        | None => True
                        end).
    + destruct (annotate_all && negb (truthy (collection_data_categories table)))
        eqn:C.
      * apply andb_true_iff in C. destruct C as [A T].
        apply negb_true_iff in T.
        apply sat_try; [|apply sat_ret; exact I].
        eapply sat_bind; [apply (sat_secho (Q := fun _ => True)); exact I|].
        intros _ _.
        eapply sat_bind;
          [apply sat_prompt; [exact Gt | exact T | right; exact A]|].
        intros cats _. apply sat_ret.
        repeat split. apply keeps_falsy; exact T.
      * apply sat_ret. repeat split.
    + intros [t'|] K.
      * destruct K as [Kn [Kd [Kc Kf]]].
        eapply sat_bind;
          [apply annotate_fields_sat; rewrite Kf; exact Gf|].
        intros flds' Kflds.
        eapply sat_bind; [exact IH'|]. intros tables'' K'.
        apply sat_ret. constructor; [|exact K'].
        repeat split; simpl; try assumption.
        rewrite <- Kf. exact Kflds.
      * apply sat_ret. constructor;
          [apply collection_kept_refl | apply collections_kept_refl].
Qed.

Lemma annotate_dataset_body_sat (dataset : Dataset) :
  good (MDataset dataset) ->
  (forall c, In c (collections dataset) ->
             good (MCollection c) /\ forall f, In f (fields c) -> good (MField f)) ->
  sat (walk_event annotate_all good) (fun r => dataset_kept dataset (fst r))
    (annotate_dataset_body grammar existing_categories annotate_all validate
       dataset).
Proof.
  intros Gd Gc. unfold annotate_dataset_body.
  eapply sat_bind; [apply (sat_secho (Q := fun _ => True)); exact I|].
  intros _ _.
  eapply sat_bind with
    (Q := fun step => match step with
                      | Some d' =>
                          fides_key d' = fides_key dataset /\
                          name d' = name dataset /\
                          description d' = description dataset /\
                          keeps (data_categories dataset) (data_categories d') /\
                          collections d' = collections dataset
                      | None => True
                      end).
  - destruct (annotate_all && negb (truthy (data_categories dataset))) eqn:C.
    + apply andb_true_iff in C. destruct C as [A T].
      apply negb_true_iff in T.
      apply sat_try; [|apply sat_ret; exact I].
      eapply sat_bind; [apply (sat_secho (Q := fun _ => True)); exact I|].
      intros _ _.
      eapply sat_bind;
        [apply sat_prompt; [exact Gd | exact T | right; exact A]|].
      intros cats _. apply sat_ret.
      repeat split. apply keeps_falsy; exact T.
    + apply sat_ret. repeat split.
  - intros [d'|] K.
    + destruct K as [Kk [Kn [Kd [Kc Kt]]]].
      eapply sat_bind;
        [apply annotate_tables_sat; rewrite Kt; exact Gc|].
      intros tables' Kts. apply sat_ret. simpl.
      repeat split; try assumption.
      rewrite <- Kt. exact Kts.
    + apply sat_ret. apply dataset_kept_refl.
Qed.

End WalkFacts.

Section RunFacts.

Variable grammar : str -> bool.
Variable ingest_manifests : str -> list Dataset.
Variable list_resource : str -> list str.

Lemma walk_datasets_sat (existing_categories : list str)
    (annotate_all validate : bool) (good : dataset_member -> Prop)
    (datasets : list Dataset) (current : option Dataset) :
  (forall d, In d datasets ->
     good (MDataset d) /\
     forall c, In c (collections d) ->
       good (MCollection c) /\ forall f, In f (fields c) -> good (MField f)) ->
  sat (walk_event annotate_all good)
    (fun r => forall d', fst r = Some d' ->
                current = Some d' \/
                exists d, In d datasets /\ dataset_kept d d')
    (walk_datasets grammar existing_categories annotate_all validate
       datasets current).
Proof.
  revert current.
  induction datasets as [|dataset datasets IH]; intros current G; simpl.
  - apply sat_ret. simpl. auto.
  - destruct (G dataset (or_introl eq_refl)) as [Gd Gc].
    eapply sat_bind; [apply annotate_dataset_body_sat; eassumption|].
    intros [d1 e] K. simpl in K |- *.
    destruct e.
    + eapply sat_weaken; [apply IH; intros d H; apply G; right; exact H|].
      simpl. intros r Hr d' E. destruct (Hr d' E) as [H|[d [H1 H2]]].
      * injection H as <-. right. exists dataset. split; [left; reflexivity | exact K].
      * right. exists d. split; [right; exact H1 | exact H2].
    + apply sat_ret. simpl. intros d' E. injection E as <-.
      right. exists dataset. split; [left; reflexivity | exact K].
Qed.

Lemma member_of_manifest (datasets : list Dataset) :
  forall d, In d datasets ->
    member_of datasets (MDataset d) /\
    forall c, In c (collections d) ->
      member_of datasets (MCollection c) /\
      forall f, In f (fields c) -> member_of datasets (MField f).
Proof.
  intros d Hd. split; [exact Hd|]. intros c Hc. split.
  - exists d. auto.
  - intros f Hf. exists d, c. auto.
Qed.

(** The run of [annotate_dataset], read off the run of its walk. *)
Lemma annotate_dataset_run (dataset_file resource_type : str)
    (annotate_all validate : bool) (op : operator) :
  let w := walk_datasets grammar (list_resource resource_type) annotate_all
             validate (ingest_manifests dataset_file) None op in
  annotate_dataset grammar ingest_manifests list_resource dataset_file
    resource_type annotate_all validate op
  = match out w with
    | Return (Some current_dataset, Exhausted) =>
        mkRun (Return tt) (remaining w)
          (Secho (MsgVisualizer resource_type) :: trace w
           ++ [WriteManifest dataset_file [current_dataset] (py "dataset")])
    | Return (None, Exhausted) =>
        mkRun (Raise UnboundLocalError) (remaining w)
          (Secho (MsgVisualizer resource_type) :: trace w)
    | Return (_, Broke) =>
        mkRun (Return tt) (remaining w)
          (Secho (MsgVisualizer resource_type) :: trace w
           ++ [WriteManifest dataset_file [] (py "dataset")])
    | Raise e =>
        mkRun (Raise e) (remaining w)
          (Secho (MsgVisualizer resource_type) :: trace w)
    | Blocked =>
        mkRun Blocked (remaining w)
          (Secho (MsgVisualizer resource_type) :: trace w)
    end.
Proof.
  cbv zeta. unfold annotate_dataset, bind at 1 2. simpl.
  destruct (out (walk_datasets _ _ _ _ _ _ _)) as [[[d|] []]| |];
    simpl; rewrite ?app_nil_r; reflexivity.
Qed.

End RunFacts.

(* ===================================================================== *)
(** ** Annotation Walker: an operator who skips every prompt *)
(* ===================================================================== *)

Lemma prompts_app (a b : list event) : prompts (a ++ b) = prompts a ++ prompts b.
Proof.
  induction a as [|e a IH]; [reflexivity|].
  destruct e; simpl; rewrite IH; reflexivity.
Qed.

Lemma Forall_skipn_skip (n : nat) (lines : list str) :
  Forall is_skip lines -> Forall is_skip (skipn n lines).
Proof.
  revert lines; induction n as [|n IH]; intros [|l lines] H; simpl; auto.
  inversion H; auto.
Qed.

Section SkipRules.

Lemma skips_ret {A} (Q : A -> Prop) (a : A) : Q a -> skips Q (ret a) [].
Proof.
  intros H lines oks _ _. exists a, []. simpl. auto.
Qed.

Lemma skips_secho (Q : unit -> Prop) (m : message) : Q tt -> skips Q (secho m) [].
Proof.
  intros H lines oks _ _. exists tt, [Secho m]. simpl. auto.
Qed.

Lemma skips_bind {A B} (Q : A -> Prop) (R : B -> Prop) (m : M A) (k : A -> M B)
    (e1 e2 : list dataset_member) :
  skips Q m e1 -> (forall a, Q a -> skips R (k a) e2) ->
  skips R (bind m k) (e1 ++ e2).
Proof.
  intros Hm Hk lines oks S L. rewrite length_app in L.
  destruct (Hm lines oks S ltac:(lia)) as [a [tr [E [Ep Qa]]]].
  destruct (Hk a Qa (skipn (length e1) lines) oks
              (Forall_skipn_skip _ S)
              ltac:(rewrite length_skipn; lia)) as [b [tr' [E' [Ep' Rb]]]].
  exists b, (tr ++ tr'). unfold bind. rewrite E. simpl. rewrite E'. simpl.
  rewrite skipn_skipn, length_app, (Nat.add_comm (length e2)), prompts_app, Ep, Ep'.
  auto.
Qed.

Lemma skips_try {A} (Q : A -> Prop) (body handler : M A)
    (e : list dataset_member) :
  skips Q body e -> skips Q (try_except_abort body handler) e.
Proof.
  intros Hb lines oks S L.
  destruct (Hb lines oks S L) as [a [tr [E H]]].
  exists a, tr. unfold try_except_abort. rewrite E. simpl. auto.
Qed.

Lemma skips_weaken {A} (Q Q' : A -> Prop) (m : M A) (e : list dataset_member) :
  skips Q m e -> (forall a, Q a -> Q' a) -> skips Q' m e.
Proof.
  intros H W lines oks S L.
  destruct (H lines oks S L) as [a [tr [E [Ep Qa]]]]. exists a, tr. auto.
Qed.

Lemma skips_prompt (grammar : str -> bool) (member : dataset_member)
    (valid_categories : list str) (validate : bool) :
  skips (fun cats => cats = [])
    (get_data_categories_annotation grammar member valid_categories validate)
    [member].
Proof.
  intros lines oks S L. destruct lines as [|line lines]; [simpl in L; lia|].
  inversion S; subst.
  exists [], [Prompt member]. split; [|auto].
  apply prompt_skip, parse_response_s. assumption.
Qed.

End SkipRules.

Lemma skips_eq {A} (Q : A -> Prop) (m : M A) (e e' : list dataset_member) :
  skips Q m e -> e = e' -> skips Q m e'.
Proof. intros H <-. exact H. Qed.

Section SkipWalk.

Variable grammar : str -> bool.
Variable existing_categories : list str.
Variables annotate_all validate : bool.

Lemma annotate_fields_skips (table : DatasetCollection)
    (flds : list DatasetField) :
  skips (fun _ => True)
    (annotate_fields grammar existing_categories validate table flds)
    (map MField
       (filter (fun f => negb (truthy (field_data_categories f))) flds)).
Proof.
  induction flds as [|field flds IH]; simpl.
  - apply skips_ret. exact I.
  - destruct (truthy (field_data_categories field)) eqn:T; simpl.
    + eapply skips_eq;
        [eapply skips_bind; [exact IH|]; intros; apply skips_ret; exact I|].
      apply app_nil_r.
    + eapply skips_eq.
      * eapply skips_bind; [apply (skips_secho (fun _ => True)); exact I|].
        intros _ _.
        eapply skips_bind with (Q := fun step => exists f', step = Some f').
        -- apply skips_try.
           eapply skips_bind; [apply skips_prompt|]. intros cats _.
           eapply skips_bind; [apply (skips_secho (fun _ => True)); exact I|].
           intros _ _. apply skips_ret. eexists; reflexivity.
        -- intros step [f' ->].
           eapply skips_bind; [exact IH|]. intros. apply skips_ret. exact I.
      * simpl. rewrite app_nil_r. reflexivity.
Qed.

Lemma annotate_tables_skips (tables : list DatasetCollection) :
  skips (fun _ => True)
    (annotate_tables grammar existing_categories annotate_all validate tables)
    (flat_map (collection_to_prompt annotate_all) tables).
Proof.
  induction tables as [|table tables IH]; simpl.
  - apply skips_ret. exact I.
  - eapply skips_eq.
    + eapply skips_bind; [apply (skips_secho (fun _ => True)); exact I|].
      intros _ _.
      eapply skips_bind with
        (Q := fun step => exists t', step = Some t' /\ fields t' = fields table)
        (e1 := if annotate_all && negb (truthy (collection_data_categories table))
               then [MCollection table] else []).
      * destruct (annotate_all && negb (truthy (collection_data_categories table))).
        -- apply skips_try.
           eapply skips_eq.
           ++ eapply skips_bind; [apply (skips_secho (fun _ => True)); exact I|].
              intros _ _.
              eapply skips_bind; [apply skips_prompt|]. intros cats _.
              apply skips_ret. eexists; split; reflexivity.
           ++ reflexivity.
        -- apply skips_ret. eexists; split; reflexivity.
      * intros step [t' [-> Ef]].
        eapply skips_bind with (e1 := fields_to_prompt table).
        { eapply skips_eq; [apply annotate_fields_skips|].
          unfold fields_to_prompt. rewrite Ef. reflexivity. }
        intros flds' _.
        eapply skips_bind; [exact IH|]. intros. apply skips_ret. exact I.
    + simpl. unfold collection_to_prompt, fields_to_prompt.
      rewrite app_nil_r, <- app_assoc. reflexivity.
Qed.

Lemma annotate_dataset_body_skips (dataset : Dataset) :
  skips (fun r => snd r = Exhausted)
    (annotate_dataset_body grammar existing_categories annotate_all validate
       dataset)
    (dataset_to_prompt annotate_all dataset).
Proof.
  unfold annotate_dataset_body. eapply skips_eq.
  - eapply skips_bind; [apply (skips_secho (fun _ => True)); exact I|].
    intros _ _.
    eapply skips_bind with
      (Q := fun step => exists d', step = Some d'
                                   /\ collections d' = collections dataset)
      (e1 := if annotate_all && negb (truthy (data_categories dataset))
             then [MDataset dataset] else []).
    + destruct (annotate_all && negb (truthy (data_categories dataset))).
      * apply skips_try.
        eapply skips_eq.
        -- eapply skips_bind; [apply (skips_secho (fun _ => True)); exact I|].
           intros _ _.
           eapply skips_bind; [apply skips_prompt|]. intros cats _.
           apply skips_ret. eexists; split; reflexivity.
        -- reflexivity.
      * apply skips_ret. eexists; split; reflexivity.
    + intros step [d' [-> Ec]].
      eapply skips_bind with
        (e1 := flat_map (collection_to_prompt annotate_all) (collections dataset)).
      { eapply skips_eq; [apply annotate_tables_skips|]. rewrite Ec. reflexivity. }
      intros tables' _. apply skips_ret. reflexivity.
  - simpl. unfold dataset_to_prompt. rewrite app_nil_r. reflexivity.
Qed.

Lemma walk_datasets_skips (datasets : list Dataset) (current : option Dataset) :
  skips (fun _ => True)
    (walk_datasets grammar existing_categories annotate_all validate
       datasets current)
    (to_prompt annotate_all datasets).
Proof.
  revert current. induction datasets as [|dataset datasets IH]; intros current;
    simpl.
  - apply skips_ret. exact I.
  - eapply skips_bind; [apply annotate_dataset_body_skips|].
    intros [d e] E. simpl in E. subst e. simpl. apply IH.
Qed.

End SkipWalk.

(* ===================================================================== *)
(** ** annotate_dataset as a whole *)
(* ===================================================================== *)

Lemma written_app (a b : list event) : written (a ++ b) = written a ++ written b.
Proof.
  induction a as [|e a IH]; [reflexivity|].
  destruct e; simpl; rewrite IH; reflexivity.
Qed.

Lemma walk_events_write_nothing (annotate_all : bool)
    (good : dataset_member -> Prop) (tr : list event) :
  Forall (walk_event annotate_all good) tr -> written tr = [].
Proof.
  induction 1 as [|e tr He _ IH]; [reflexivity|].
  destruct e; simpl in *; try assumption. contradiction.
Qed.

Lemma In_prompt_app_write (m : dataset_member) (tr : list event)
    (file : str) (output : list Dataset) (rt : str) :
  In (Prompt m) (tr ++ [WriteManifest file output rt]) -> In (Prompt m) tr.
Proof.
  rewrite in_app_iff. intros [H|[H|[]]]; [assumption | discriminate H].
Qed.

Section AnnotateFacts.

Variable grammar : str -> bool.
Variable ingest_manifests : str -> list Dataset.
Variable list_resource : str -> list str.
Variables dataset_file resource_type : str.
Variables annotate_all validate : bool.

Lemma walk_sat :
  sat (walk_event annotate_all (member_of (ingest_manifests dataset_file)))
    (fun r => forall d', fst r = Some d' ->
                exists d, In d (ingest_manifests dataset_file)
                          /\ dataset_kept d d')
    (walk_datasets grammar (list_resource resource_type) annotate_all validate
       (ingest_manifests dataset_file) None).
Proof.
  eapply sat_weaken.
  - apply walk_datasets_sat. apply member_of_manifest.
  - simpl. intros r H d' E. destruct (H d' E) as [H'|H']; [discriminate | exact H'].
Qed.

(** Every prompt of a run is a prompt of its walk. *)
Lemma prompt_of_walk (op : operator) (m : dataset_member) :
  In (Prompt m)
     (trace (annotate_dataset grammar ingest_manifests list_resource
               dataset_file resource_type annotate_all validate op)) ->
  In (Prompt m)
     (trace (walk_datasets grammar (list_resource resource_type) annotate_all
               validate (ingest_manifests dataset_file) None op)).
Proof.
  rewrite annotate_dataset_run. cbv zeta.
  destruct (out (walk_datasets _ _ _ _ _ _ _)) as [[[d|] []]| |]; simpl;
    intros [H|H]; try discriminate H; try assumption;
    eapply In_prompt_app_write; eassumption.
Qed.

(** A run writes at most once, at its very end, and then at most one
    dataset: the one the walk ended on. *)
Lemma written_by_run (op : operator) :
  written (trace (annotate_dataset grammar ingest_manifests list_resource
                    dataset_file resource_type annotate_all validate op))
  = match out (walk_datasets grammar (list_resource resource_type)
                 annotate_all validate (ingest_manifests dataset_file)
                 None op) with
    | Return (Some current_dataset, Exhausted) => [[current_dataset]]
    | Return (None, Exhausted) => []
    | Return (_, Broke) => [[]]
    | _ => []
    end.
Proof.
  rewrite annotate_dataset_run. cbv zeta.
  destruct (walk_sat op) as [T _].
  apply walk_events_write_nothing in T.
  destruct (out (walk_datasets _ _ _ _ _ _ _)) as [[[d|] []]| |]; simpl;
    rewrite ?written_app, T; reflexivity.
Qed.

Lemma written_at_most_one_dataset (op : operator) (output : list Dataset) :
  In output
     (written (trace (annotate_dataset grammar ingest_manifests list_resource
                        dataset_file resource_type annotate_all validate op))) ->
  length output <= 1.
Proof.
  rewrite written_by_run.
  destruct (out (walk_datasets _ _ _ _ _ _ _)) as [[[d|] []]| |];
    simpl; intros [<-|[]] || intros []; simpl; lia.
Qed.

End AnnotateFacts.

(** A field without labels is among the members to prompt for, whether
    annotate-all is on or off. *)
Lemma unlabelled_field_to_prompt (annotate_all : bool) (datasets : list Dataset)
    (d : Dataset) (c : DatasetCollection) (f : DatasetField) :
  In d datasets -> In c (collections d) -> In f (fields c) ->
  truthy (field_data_categories f) = false ->
  In (MField f) (to_prompt annotate_all datasets).
Proof.
  intros Hd Hc Hf T. unfold to_prompt.
  apply in_flat_map. exists d. split; [exact Hd|].
  unfold dataset_to_prompt. apply in_or_app. right.
  apply in_flat_map. exists c. split; [exact Hc|].
  unfold collection_to_prompt, fields_to_prompt. apply in_or_app. right.
  apply in_map, filter_In. split; [exact Hf|]. rewrite T. reflexivity.
Qed.

(** C7: annotation fills empty label sets only.  In every run, each prompt is
    for an entity of the manifest whose label set is empty or absent, and for
    a field unless annotate-all is on; a dataset that is written stems from a
    dataset of the manifest with every non-empty label set as it was, and so
    does every dataset the loop body hands back; and with an operator who
    skips every prompt, the entities asked about are exactly, in walk order,
    the fields without labels, together with the datasets and collections
    without labels when annotate-all is on; every field without labels is
    asked about, annotate-all or not. *)
Theorem annotation_fills_only_empty_label_sets
    (grammar : str -> bool) (ingest_manifests : str -> list Dataset)
    (list_resource : str -> list str) (dataset_file resource_type : str)
    (annotate_all validate : bool) :
  let annotate := annotate_dataset grammar ingest_manifests list_resource
                    dataset_file resource_type annotate_all validate in
  let datasets := ingest_manifests dataset_file in
  (forall op m,
     In (Prompt m) (trace (annotate op)) ->
     member_of datasets m /\
     truthy (member_categories m) = false /\
     (is_field m = true \/ annotate_all = true))
  /\
  (forall op output d',
     In output (written (trace (annotate op))) -> In d' output ->
     exists d, In d datasets /\ dataset_kept d d')
  /\
  (forall existing_categories dataset op d' e,
     out (annotate_dataset_body grammar existing_categories annotate_all
            validate dataset op) = Return (d', e) ->
     dataset_kept dataset d')
  /\
  (forall lines oks,
     Forall is_skip lines ->
     length (to_prompt annotate_all datasets) <= length lines ->
     prompts (trace (annotate (mkOperator lines oks)))
     = to_prompt annotate_all datasets
     /\
     forall d c f,
       In d datasets -> In c (collections d) -> In f (fields c) ->
       truthy (field_data_categories f) = false ->
       In (MField f) (prompts (trace (annotate (mkOperator lines oks))))).
Proof.
  cbv zeta. split; [|split; [|split]].
  - intros op m H. apply prompt_of_walk in H.
    destruct (walk_sat grammar ingest_manifests list_resource dataset_file
                resource_type annotate_all validate op) as [T _].
    rewrite Forall_forall in T. apply (T _ H).
  - intros op output d' Ho Hd.
    rewrite written_by_run in Ho.
    destruct (walk_sat grammar ingest_manifests list_resource dataset_file
                resource_type annotate_all validate op) as [_ R].
    destruct (out (walk_datasets _ _ _ _ _ _ _)) as [[[d|] []]| |];
      simpl in Ho;
      try contradiction; destruct Ho as [<-|[]]; simpl in Hd;
      try contradiction.
    destruct Hd as [<-|[]]. apply (R (Some d, Exhausted) eq_refl d eq_refl).
  - intros existing_categories dataset op d' e E.
    destruct (annotate_dataset_body_sat grammar existing_categories annotate_all
                validate (fun _ => True) dataset I
                (fun c _ => conj I (fun f _ => I)) op) as [_ R].
    apply (R (d', e) E).
  - intros lines oks S L.
    assert (Ep : prompts (trace (annotate_dataset grammar ingest_manifests
                                   list_resource dataset_file resource_type
                                   annotate_all validate
                                   (mkOperator lines oks)))
                 = to_prompt annotate_all (ingest_manifests dataset_file)).
    { rewrite annotate_dataset_run. cbv zeta.
      destruct (walk_datasets_skips grammar (list_resource resource_type)
                  annotate_all validate (ingest_manifests dataset_file) None
                  oks S L) as [a [tr [E [Ep _]]]].
      rewrite E. simpl.
      destruct a as [[d|] []]; simpl; rewrite ?prompts_app; simpl;
        rewrite ?app_nil_r; exact Ep. }
    split; [exact Ep|]. rewrite Ep.
    intros d c f Hd Hc Hf T. apply unlabelled_field_to_prompt with d c; assumption.
Qed.

Lemma annotation_fills_only_empty_label_sets_witness :
  Forall is_skip (repeat (py " s") 6) /\
  length (to_prompt false (Fixture.manifest Fixture.file))
    <= length (repeat (py " s") 6) /\
  prompts (trace (annotate_dataset Fixture.key_grammar Fixture.manifest
                    Fixture.categories Fixture.file Fixture.resource
                    false true (mkOperator (repeat (py " s") 6) [])))
  = map MField
      [Fixture.blank_field "id"; Fixture.blank_field "email";
       Fixture.blank_field "total"; Fixture.blank_field "page";
       Fixture.blank_field "ip"; Fixture.blank_field "target"].
Proof.
  assert (S : Forall is_skip (repeat (py " s") 6))
    by (repeat constructor).
  assert (L : length (to_prompt false (Fixture.manifest Fixture.file))
              <= length (repeat (py " s") 6))
    by (simpl; lia).
  split; [exact S | split; [exact L|]].
  exact (proj1 (proj2 (proj2 (proj2
           (annotation_fills_only_empty_label_sets Fixture.key_grammar
              Fixture.manifest Fixture.categories Fixture.file
              Fixture.resource false true)))
           (repeat (py " s") 6) [] S L)).
Defined.

(** C10: on a manifest without datasets the loop body never binds
    [current_dataset], the [else] of the loop reads it all the same, and the
    run ends in that error with no manifest written. *)
Theorem empty_manifest_raises_unbound_local
    (grammar : str -> bool) (ingest_manifests : str -> list Dataset)
    (list_resource : str -> list str) (dataset_file resource_type : str)
    (annotate_all validate : bool) (op : operator) :
  ingest_manifests dataset_file = [] ->
  let r := annotate_dataset grammar ingest_manifests list_resource
             dataset_file resource_type annotate_all validate op in
  r = mkRun (Raise UnboundLocalError) op [Secho (MsgVisualizer resource_type)]
  /\ written (trace r) = [].
Proof.
  intros E. cbv zeta. rewrite annotate_dataset_run. cbv zeta.
  rewrite E. simpl. split; reflexivity.
Qed.

Lemma empty_manifest_raises_unbound_local_witness :
  (fun _ : str => @nil Dataset) Fixture.file = [] /\
  out (annotate_dataset Fixture.key_grammar (fun _ => []) Fixture.categories
         Fixture.file Fixture.resource true true Fixture.labelling_operator)
  = Raise UnboundLocalError.
Proof.
  split; [reflexivity|].
  exact (f_equal (@out unit)
           (proj1 (empty_manifest_raises_unbound_local Fixture.key_grammar
                     (fun _ => []) Fixture.categories Fixture.file
                     Fixture.resource true true Fixture.labelling_operator
                     eq_refl))).
Defined.

(* ===================================================================== *)
(** ** Runs on the two-dataset fixture *)
(* ===================================================================== *)

(** C1: on the fixture of two datasets without labels, with annotate-all on
    and an operator who answers every one of the twelve prompts with the
    valid label, the run returns and writes once, and the manifest written
    holds the second dataset only: the first, though fully labelled, is not
    in it.  Whatever the manifest and the operator, no written manifest
    holds more than one dataset. *)
Theorem annotate_all_writes_only_the_last_dataset :
  let r := annotate_dataset Fixture.key_grammar Fixture.manifest
             Fixture.categories Fixture.file Fixture.resource true true
             Fixture.labelling_operator in
  (out r = Return tt /\
   remaining r = mkOperator [] [] /\
   prompts (trace r) = to_prompt true [Fixture.shop; Fixture.web] /\
   written (trace r) = [[Fixture.web_labelled]])
  /\
  (forall grammar ingest_manifests list_resource dataset_file resource_type
          annotate_all validate op output,
     In output
        (written (trace (annotate_dataset grammar ingest_manifests
                           list_resource dataset_file resource_type
                           annotate_all validate op))) ->
     length output <= 1).
Proof.
  split.
  - vm_compute. repeat split.
  - intros. eapply written_at_most_one_dataset. eassumption.
Qed.

(** C2: what a confirmed quit leaves in the manifest, on the fixture.
    Quitting at the second field of the first collection ends that
    collection only: the operator is asked about the remaining four fields,
    and the manifest written holds the second dataset alone, without the
    label given to the first field.  If the script ends with the quit, the
    run waits at the next prompt and writes nothing.  Quitting at the prompt
    for the second dataset, after the first was labelled throughout, writes
    a manifest with no dataset at all. *)
Theorem confirmed_quit_loses_collected_labels :
  let field_quit := annotate_dataset Fixture.key_grammar Fixture.manifest
                      Fixture.categories Fixture.file Fixture.resource
                      false true Fixture.quitting_operator in
  let silent := annotate_dataset Fixture.key_grammar Fixture.manifest
                  Fixture.categories Fixture.file Fixture.resource
                  false true Fixture.silent_quitting_operator in
  let dataset_quit := annotate_dataset Fixture.key_grammar Fixture.manifest
                        Fixture.categories Fixture.file Fixture.resource
                        true true Fixture.late_quitting_operator in
  (out field_quit = Return tt /\
   written (trace field_quit) = [[Fixture.web_skipped]])
  /\
  (out silent = Blocked /\ written (trace silent) = [])
  /\
  (out dataset_quit = Return tt /\ written (trace dataset_quit) = [[]]).
Proof.
  vm_compute. repeat split.
Qed.

(** C3: what is asked after a confirmed quit, on the fixture.  After the
    quit at the second field of the first collection the operator is still
    asked about the field of the next collection and about every field of
    the next dataset; after the quit at the first collection of the first
    dataset (annotate-all on) the operator is still asked about the next
    dataset, its collections and their fields. *)
Theorem confirmed_quit_leaves_only_the_innermost_loop :
  let field_quit := annotate_dataset Fixture.key_grammar Fixture.manifest
                      Fixture.categories Fixture.file Fixture.resource
                      false true Fixture.quitting_operator in
  let table_quit := annotate_dataset Fixture.key_grammar Fixture.manifest
                      Fixture.categories Fixture.file Fixture.resource
                      true true Fixture.table_quitting_operator in
  dialogue (trace field_quit)
  = [Prompt (MField (Fixture.blank_field "id"));
     Prompt (MField (Fixture.blank_field "email"));
     Confirm;
     Prompt (MField (Fixture.blank_field "total"));
     Prompt (MField (Fixture.blank_field "page"));
     Prompt (MField (Fixture.blank_field "ip"));
     Prompt (MField (Fixture.blank_field "target"))]
  /\
  dialogue (trace table_quit)
  = [Prompt (MDataset Fixture.shop);
     Prompt (MCollection Fixture.users);
     Confirm;
     Prompt (MDataset Fixture.web);
     Prompt (MCollection Fixture.visits);
     Prompt (MField (Fixture.blank_field "page"));
     Prompt (MField (Fixture.blank_field "ip"));
     Prompt (MCollection Fixture.clicks);
     Prompt (MField (Fixture.blank_field "target"))].
Proof.
  vm_compute. split; reflexivity.
Qed.

(* ===================================================================== *)
(** ** Schema Inspector *)
(* ===================================================================== *)

Section DictFacts.

Context {V : Type}.

Lemma dict_get_In (d : dict V) (k : str) (v : V) :
  dict_get d k = Some v -> In (k, v) d.
Proof.
  induction d as [|[k' v'] d IH]; simpl; [discriminate|].
  destruct (str_eqb k' k) eqn:E.
  - apply str_eqb_eq in E. intros H; injection H as <-. left; congruence.
  - intros H; right; auto.
Qed.

Lemma dict_get_set (d : dict V) (k : str) (v : V) :
  dict_get (dict_set d k v) k = Some v.
Proof.
  induction d as [|[k' v'] d IH]; simpl.
  - rewrite str_eqb_refl. reflexivity.
  - destruct (str_eqb k' k) eqn:E; simpl; rewrite E; [reflexivity | exact IH].
Qed.

(** An item of a dict after [d[k] = v] is the new item or an old one. *)
Lemma In_dict_set (d : dict V) (k : str) (v : V) (k0 : str) (v0 : V) :
  In (k0, v0) (dict_set d k v) -> (k0 = k /\ v0 = v) \/ In (k0, v0) d.
Proof.
  induction d as [|[k' v'] d IH]; simpl.
  - intros [H|[]]. injection H as <- <-. auto.
  - destruct (str_eqb k' k) eqn:E; simpl.
    + apply str_eqb_eq in E. subst k'.
      intros [H|H]; [injection H as <- <-; auto | auto].
    + intros [H|H]; [auto|]. destruct (IH H); auto.
Qed.

Lemma In_keys (d : dict V) (k : str) :
  In k (keys d) <-> exists v, In (k, v) d.
Proof.
  unfold keys. rewrite in_map_iff. split.
  - intros [[k' v] [E H]]. simpl in E. subst. eauto.
  - intros [v H]. exists (k, v). auto.
Qed.

End DictFacts.

Section InspectorFacts.

Variable engine : Engine.

Lemma fill_tables_ok (schema : str) (tables : list str)
    (db_tables : dict (dict (list str))) :
  incl tables (get_table_names (inspect engine) schema) ->
  dict_get db_tables schema <> None ->
  well_filled engine db_tables ->
  exists db_tables',
    fill_tables (inspect engine) schema tables db_tables = Some db_tables'
    /\ well_filled engine db_tables'.
Proof.
  revert db_tables.
  induction tables as [|table tables IH]; intros db_tables Ht Hs W; simpl.
  - eauto.
  - destruct (dict_get db_tables schema) as [of_schema|] eqn:G; [|congruence].
    apply IH.
    + intros t H. apply Ht. right; exact H.
    + rewrite dict_get_set. discriminate.
    + intros s inner H.
      apply In_dict_set in H. destruct H as [[-> ->]|H]; [|exact (W _ _ H)].
      apply dict_get_In in G. destruct (W _ _ G) as [Ws Wk].
      split; [exact Ws|]. intros key cols H.
      apply In_dict_set in H. destruct H as [[-> ->]|H]; [|exact (Wk _ _ H)].
      exists table. split; [apply Ht; left; reflexivity | auto].
Qed.

Lemma fill_schemas_ok (schemas : list str) (db_tables : dict (dict (list str))) :
  (forall schema, In schema schemas ->
     In schema (get_schema_names (inspect engine))
     /\ ~ In schema (excluded_schemas engine)) ->
  well_filled engine db_tables ->
  exists db_tables',
    fill_schemas (inspect engine) schemas db_tables = Some db_tables'
    /\ well_filled engine db_tables'.
Proof.
  revert db_tables.
  induction schemas as [|schema schemas IH]; intros db_tables Hs W; simpl.
  - eauto.
  - destruct (@fill_tables_ok schema (get_table_names (inspect engine) schema)
                (dict_set db_tables schema []))
      as [db1 [E W1]].
    + apply incl_refl.
    + rewrite dict_get_set. discriminate.
    + intros s inner H.
      apply In_dict_set in H. destruct H as [[-> ->]|H]; [|exact (W _ _ H)].
      split; [apply Hs; left; reflexivity|]. intros key cols [].
    + rewrite E. apply IH; [|exact W1].
      intros s H. apply Hs. right; exact H.
Qed.

Lemma get_db_collections_and_fields_ok :
  exists db_tables,
    get_db_collections_and_fields engine = Some db_tables
    /\ well_filled engine db_tables.
Proof.
  unfold get_db_collections_and_fields. apply fill_schemas_ok.
  - intros schema H. apply filter_In in H. destruct H as [H N].
    split; [exact H|]. apply negb_true_iff in N. apply str_in_false; exact N.
  - intros s inner [].
Qed.

End InspectorFacts.

(** C8: [get_db_collections_and_fields] returns a mapping for every engine;
    [information_schema] is never one of its keys, nor are [mysql],
    [performance_schema] and [sys] when the dialect is mysql; and every key
    under a schema is the qualified name [schema.table] of one of that
    schema's tables, holding the names of its columns. *)
Theorem system_schemas_left_out_and_tables_qualified (engine : Engine) :
  exists db_tables,
    get_db_collections_and_fields engine = Some db_tables
    /\ ~ In (py "information_schema") (keys db_tables)
    /\ (dialect_name engine = py "mysql" ->
        ~ In (py "mysql") (keys db_tables)
        /\ ~ In (py "performance_schema") (keys db_tables)
        /\ ~ In (py "sys") (keys db_tables))
    /\ (forall schema of_schema key cols,
          In (schema, of_schema) db_tables -> In (key, cols) of_schema ->
          exists table,
            In table (get_table_names (inspect engine) schema)
            /\ key = schema ++ py "." ++ table
            /\ cols = map column_name
                        (get_columns (inspect engine) table schema)).
Proof.
  destruct (get_db_collections_and_fields_ok engine) as [db [E W]].
  exists db. split; [exact E|].
  assert (X : forall s, In s (excluded_schemas engine) -> ~ In s (keys db)).
  { intros s Hs Hk. apply In_keys in Hk. destruct Hk as [inner H].
    destruct (W _ _ H) as [[_ N] _]. contradiction. }
  split; [|split].
  - apply X. unfold excluded_schemas.
    destruct (str_eqb _ _); simpl; auto.
  - intros D. unfold excluded_schemas in X. rewrite D in X. simpl in X.
    repeat split; apply X; auto 6.
  - intros schema of_schema key cols H1 H2.
    destruct (W _ _ H1) as [_ Wk]. exact (Wk _ _ H2).
Qed.

Lemma system_schemas_left_out_and_tables_qualified_witness :
  dialect_name Fixture.mysql_engine = py "mysql" /\
  exists db_tables,
    get_db_collections_and_fields Fixture.mysql_engine = Some db_tables
    /\ ~ In (py "mysql") (keys db_tables)
    /\ ~ In (py "performance_schema") (keys db_tables)
    /\ ~ In (py "sys") (keys db_tables).
Proof.
  split; [reflexivity|].
  destruct (system_schemas_left_out_and_tables_qualified Fixture.mysql_engine)
    as [db [E [_ [H _]]]].
  exists db. split; [exact E | exact (H eq_refl)].
Defined.

(* ===================================================================== *)
(** ** Collection Builder *)
(* ===================================================================== *)

Lemma Forall2_map_built {A B} (R : A -> B -> Prop) (f : A -> B) (l : list A) :
  (forall x, In x l -> R x (f x)) -> Forall2 R l (map f l).
Proof.
  induction l as [|x l IH]; intros H; simpl; constructor.
  - apply H. left; reflexivity.
  - apply IH. intros y Hy. apply H. right; exact Hy.
Qed.

(** C9: [create_dataset_collections] builds one dataset per schema, one
    collection per table of the schema and one field per column of the
    table; every field has a placeholder description that is not empty and
    an empty list of data categories. *)
Theorem create_dataset_collections_counts (db_tables : dict (dict (list str))) :
  let datasets := create_dataset_collections db_tables in
  length datasets = length db_tables /\
  Forall2 dataset_built db_tables datasets /\
  (forall d c f,
     In d datasets -> In c (collections d) -> In f (fields c) ->
     field_description f
       = py "Fides Generated Description for Column: " ++ field_name f
     /\ field_description f <> []
     /\ field_data_categories f = Some []).
Proof.
  cbv zeta. unfold create_dataset_collections. split; [apply length_map|].
  split.
  - apply Forall2_map_built. intros [schema_name schema] _.
    repeat split; simpl; [apply length_map|].
    apply Forall2_map_built. intros [table_name table] _.
    repeat split; simpl; [apply length_map|].
    apply Forall2_map_built. intros column _.
    repeat split. simpl. discriminate.
  - intros d c f Hd Hc Hf.
    apply in_map_iff in Hd. destruct Hd as [[schema_name schema] [<- _]].
    simpl in Hc.
    apply in_map_iff in Hc. destruct Hc as [[table_name table] [<- _]].
    simpl in Hf.
    apply in_map_iff in Hf. destruct Hf as [column [<- _]].
    simpl. repeat split. discriminate.
Qed.

Lemma create_dataset_collections_counts_witness :
  In (mkField (py "email")
        (py "Fides Generated Description for Column: email") (Some []))
     (flat_map fields
        (flat_map collections
           (create_dataset_collections
              [(py "public", [(py "public.users", [py "id"; py "email"])])])))
  /\
  field_description
    (mkField (py "email")
       (py "Fides Generated Description for Column: email") (Some []))
  <> [].
Proof.
  split; [right; left; reflexivity|].
  exact (proj1 (proj2
           (proj2 (proj2
              (create_dataset_collections_counts
                 [(py "public", [(py "public.users", [py "id"; py "email"])])]))
              _ _
              (mkField (py "email")
                 (py "Fides Generated Description for Column: email") (Some []))
              (or_introl eq_refl) (or_introl eq_refl)
              (or_intror (or_introl eq_refl))))).
Defined.

(* ===================================================================== *)
(** ** Dicts built by successive assignments *)
(* ===================================================================== *)

Section DictLaws.

Context {V : Type}.

Lemma dict_get_set_other (d : dict V) (k k' : str) (v : V) :
  k <> k' -> dict_get (dict_set d k v) k' = dict_get d k'.
Proof.
  intros N. induction d as [|[k0 v0] d IH]; simpl.
  - destruct (str_eqb k k') eqn:E; [apply str_eqb_eq in E; contradiction|].
    reflexivity.
  - destruct (str_eqb k0 k) eqn:E; simpl.
    + apply str_eqb_eq in E. subst k0.
      destruct (str_eqb k k') eqn:E'; [apply str_eqb_eq in E'; contradiction|].
      reflexivity.
    + rewrite IH. reflexivity.
Qed.

Lemma dict_set_set (d : dict V) (k : str) (v v' : V) :
  dict_set (dict_set d k v) k v' = dict_set d k v'.
Proof.
  induction d as [|[k0 v0] d IH]; simpl.
  - rewrite str_eqb_refl. reflexivity.
  - destruct (str_eqb k0 k) eqn:E; simpl; rewrite E; [reflexivity|].
    rewrite IH. reflexivity.
Qed.

Lemma dict_set_get_same (d : dict V) (k : str) (v : V) :
  dict_get d k = Some v -> dict_set d k v = d.
Proof.
  induction d as [|[k0 v0] d IH]; simpl; [discriminate|].
  destruct (str_eqb k0 k) eqn:E.
  - intros H; injection H as ->. reflexivity.
  - intros H. rewrite IH by exact H. reflexivity.
Qed.

Lemma dict_get_None (d : dict V) (k : str) :
  dict_get d k = None <-> ~ In k (keys d).
Proof.
  induction d as [|[k0 v0] d IH]; simpl; [tauto|].
  destruct (str_eqb k0 k) eqn:E.
  - apply str_eqb_eq in E. split; [discriminate | tauto].
  - rewrite IH. split; [|tauto].
    intros H [H'|H']; [|tauto].
    subst. rewrite str_eqb_refl in E. discriminate.
Qed.

(** With no key twice, an item of the dict is what a lookup finds. *)
Lemma In_dict_get (d : dict V) (k : str) (v : V) :
  NoDup (keys d) -> In (k, v) d -> dict_get d k = Some v.
Proof.
  induction d as [|[k0 v0] d IH]; simpl; [tauto|].
  intros N [H|H].
  - injection H as -> ->. rewrite str_eqb_refl. reflexivity.
  - inversion N as [|? ? N0 N1]; subst.
    destruct (str_eqb k0 k) eqn:E; [|auto].
    apply str_eqb_eq in E. subst k0. exfalso. apply N0.
    apply In_keys. eauto.
Qed.

Lemma dict_set_new (d : dict V) (k : str) (v : V) :
  ~ In k (keys d) -> dict_set d k v = d ++ [(k, v)].
Proof.
  induction d as [|[k0 v0] d IH]; simpl; intros N; [reflexivity|].
  destruct (str_eqb k0 k) eqn:E.
  - apply str_eqb_eq in E. tauto.
  - rewrite IH by tauto. reflexivity.
Qed.

Lemma keys_dict_set_old (d : dict V) (k : str) (v : V) :
  In k (keys d) -> keys (dict_set d k v) = keys d.
Proof.
  induction d as [|[k0 v0] d IH]; simpl; [tauto|].
  destruct (str_eqb k0 k) eqn:E; simpl; [reflexivity|].
  intros [H|H].
  - subst. rewrite str_eqb_refl in E. discriminate.
  - f_equal. apply IH. exact H.
Qed.

Lemma In_keys_dict_set (d : dict V) (k k' : str) (v : V) :
  In k' (keys (dict_set d k v)) <-> k' = k \/ In k' (keys d).
Proof.
  destruct (str_in k (keys d)) eqn:I.
  - apply str_in_In in I. rewrite keys_dict_set_old by exact I.
    split; [tauto|]. intros [->|H]; assumption.
  - apply str_in_false in I. rewrite dict_set_new by exact I.
    unfold keys. rewrite map_app, in_app_iff. simpl. split.
    + intros [H|[H|[]]]; auto.
    + intros [->|H]; auto.
Qed.

Lemma NoDup_keys_dict_set (d : dict V) (k : str) (v : V) :
  NoDup (keys d) -> NoDup (keys (dict_set d k v)).
Proof.
  intros N. destruct (str_in k (keys d)) eqn:I.
  - apply str_in_In in I. rewrite keys_dict_set_old by exact I. exact N.
  - apply str_in_false in I. rewrite dict_set_new by exact I.
    unfold keys. rewrite map_app. simpl.
    apply NoDup_app; [exact N | repeat constructor; simpl; tauto|].
    intros x Hx [<-|[]]. exact (I Hx).
Qed.

End DictLaws.

Section DictFolds.

Context {X V : Type}.
Variable key_of : X -> str.
Variable value_of : X -> V.

Lemma dict_get_fold_other (l : list X) (d : dict V) (k : str) :
  ~ In k (map key_of l) ->
  dict_get (fold_left (fun d x => dict_set d (key_of x) (value_of x)) l d) k
  = dict_get d k.
Proof.
  revert d. induction l as [|x l IH]; intros d N; simpl; [reflexivity|].
  simpl in N. rewrite IH by tauto.
  apply dict_get_set_other. intros E. apply N. left; exact E.
Qed.

(** When items with the same key carry the same value, every item assigned
    is found under its key. *)
Lemma dict_get_fold_in (l : list X) (d : dict V) (x : X) :
  (forall y z, In y l -> In z l -> key_of y = key_of z ->
               value_of y = value_of z) ->
  In x l ->
  dict_get (fold_left (fun d x => dict_set d (key_of x) (value_of x)) l d)
    (key_of x)
  = Some (value_of x).
Proof.
  revert d x. induction l as [|y l IH]; intros d x C Hx; simpl; [contradiction|].
  destruct (str_in (key_of x) (map key_of l)) eqn:I.
  - apply str_in_In in I. apply in_map_iff in I. destruct I as [z [Ez Hz]].
    rewrite <- Ez.
    rewrite IH; [| intros a b Ha Hb; apply C; right; assumption | exact Hz].
    f_equal. apply C; [right; exact Hz | exact Hx | exact Ez].
  - apply str_in_false in I. rewrite dict_get_fold_other by exact I.
    destruct Hx as [->|Hx].
    + apply dict_get_set.
    + exfalso. apply I. apply in_map. exact Hx.
Qed.

Lemma In_keys_fold (l : list X) (d : dict V) (k : str) :
  In k (keys (fold_left (fun d x => dict_set d (key_of x) (value_of x)) l d))
  <-> In k (keys d) \/ In k (map key_of l).
Proof.
  revert d. induction l as [|x l IH]; intros d; simpl; [tauto|].
  rewrite IH, In_keys_dict_set. split.
  - intros [[->|H]|H]; auto.
  - intros [H|[<-|H]]; auto.
Qed.

Lemma NoDup_keys_fold (l : list X) (d : dict V) :
  NoDup (keys d) ->
  NoDup (keys (fold_left (fun d x => dict_set d (key_of x) (value_of x)) l d)).
Proof.
  revert d. induction l as [|x l IH]; intros d N; simpl; [exact N|].
  apply IH, NoDup_keys_dict_set, N.
Qed.

(** Assigning fresh, pairwise different keys appends the items in order. *)
Lemma fold_fresh (l : list X) (d : dict V) :
  NoDup (map key_of l) ->
  (forall x, In x l -> ~ In (key_of x) (keys d)) ->
  fold_left (fun d x => dict_set d (key_of x) (value_of x)) l d
  = d ++ map (fun x => (key_of x, value_of x)) l.
Proof.
  revert d. induction l as [|x l IH]; intros d N F; simpl.
  - rewrite app_nil_r. reflexivity.
  - inversion N as [|? ? N0 N1]; subst.
    rewrite dict_set_new by (apply F; left; reflexivity).
    rewrite IH; [rewrite <- app_assoc; reflexivity | exact N1 |].
    intros y Hy. unfold keys. rewrite map_app, in_app_iff. simpl.
    intros [H|[H|[]]].
    + apply (F y); [right; exact Hy | exact H].
    + apply N0. rewrite H. apply in_map. exact Hy.
Qed.

End DictFolds.

(* ===================================================================== *)
(** ** Schema Inspector: what the mapping holds *)
(* ===================================================================== *)

Lemma qualified_inj (schema table table' : str) :
  qualified schema table = qualified schema table' -> table = table'.
Proof.
  unfold qualified. intros E.
  apply app_inv_head in E. simpl in E. injection E; auto.
Qed.

Lemma NoDup_map_qualified (schema : str) (tables : list str) :
  NoDup tables -> NoDup (map (qualified schema) tables).
Proof.
  induction 1 as [|t tables Ht _ IH]; simpl; constructor; [|exact IH].
  intros H. apply in_map_iff in H. destruct H as [t' [E H]].
  apply qualified_inj in E. subst. contradiction.
Qed.

Section MappingFacts.

Variable engine : Engine.

(** The inner loop, as one assignment of the dict it leaves. *)
Lemma fill_tables_fold (schema : str) (tables : list str)
    (db_tables : dict (dict (list str))) (of_schema : dict (list str)) :
  dict_get db_tables schema = Some of_schema ->
  fill_tables (inspect engine) schema tables db_tables
  = Some (dict_set db_tables schema
            (fold_left
               (fun of_schema table =>
                  dict_set of_schema (qualified schema table)
                    (columns_of engine schema table))
               tables of_schema)).
Proof.
  revert db_tables of_schema.
  induction tables as [|table tables IH]; intros db_tables of_schema G; simpl.
  - rewrite dict_set_get_same by exact G. reflexivity.
  - rewrite G.
    rewrite IH with
      (of_schema := dict_set of_schema (qualified schema table)
                      (columns_of engine schema table))
      by apply dict_get_set.
    rewrite dict_set_set. reflexivity.
Qed.

(** The outer loop, as a chain of assignments. *)
Lemma fill_schemas_fold (schemas : list str)
    (db_tables : dict (dict (list str))) :
  fill_schemas (inspect engine) schemas db_tables
  = Some (fold_left
            (fun db_tables schema =>
               dict_set db_tables schema (tables_assigned engine schema))
            schemas db_tables).
Proof.
  revert db_tables.
  induction schemas as [|schema schemas IH]; intros db_tables; simpl;
    [reflexivity|].
  rewrite fill_tables_fold with (of_schema := []) by apply dict_get_set.
  rewrite dict_set_set. apply IH.
Qed.

Lemma get_db_collections_and_fields_fold :
  get_db_collections_and_fields engine
  = Some (fold_left
            (fun db_tables schema =>
               dict_set db_tables schema (tables_assigned engine schema))
            (kept_schemas engine) []).
Proof. apply fill_schemas_fold. Qed.

Lemma In_kept_schemas (schema : str) :
  In schema (kept_schemas engine) <->
  In schema (get_schema_names (inspect engine))
  /\ ~ In schema (excluded_schemas engine).
Proof.
  unfold kept_schemas. rewrite filter_In, negb_true_iff, str_in_false.
  reflexivity.
Qed.

Lemma tables_assigned_get (schema table : str) :
  In table (get_table_names (inspect engine) schema) ->
  dict_get (tables_assigned engine schema) (qualified schema table)
  = Some (columns_of engine schema table).
Proof.
  intros H. unfold tables_assigned.
  apply (dict_get_fold_in (qualified schema) (columns_of engine schema)).
  - intros y z _ _ E. apply qualified_inj in E. subst; reflexivity.
  - exact H.
Qed.

Lemma tables_assigned_keys (schema key : str) :
  In key (keys (tables_assigned engine schema)) <->
  In key (map (qualified schema) (get_table_names (inspect engine) schema)).
Proof.
  unfold tables_assigned.
  rewrite (In_keys_fold (qualified schema) (columns_of engine schema)).
  simpl. tauto.
Qed.

Lemma tables_assigned_in_order (schema : str) :
  NoDup (get_table_names (inspect engine) schema) ->
  tables_assigned engine schema = tables_of engine schema.
Proof.
  intros N. unfold tables_assigned, tables_of.
  rewrite (fold_fresh (qualified schema) (columns_of engine schema));
    [reflexivity | | intros x _ []].
  apply NoDup_map_qualified. exact N.
Qed.

End MappingFacts.

(** X1: every table of every schema that the inspector lists and that is
    not excluded can be looked up in the mapping, first by schema and then by
    qualified name, and the lookup gives the table's column names. *)
Theorem every_kept_table_is_found (engine : Engine) (schema table : str) :
  In schema (get_schema_names (inspect engine)) ->
  ~ In schema (excluded_schemas engine) ->
  In table (get_table_names (inspect engine) schema) ->
  exists db_tables of_schema,
    get_db_collections_and_fields engine = Some db_tables
    /\ dict_get db_tables schema = Some of_schema
    /\ dict_get of_schema (schema ++ py "." ++ table)
       = Some (map column_name (get_columns (inspect engine) table schema)).
Proof.
  intros Hs Hx Ht.
  eexists. exists (tables_assigned engine schema).
  split; [apply get_db_collections_and_fields_fold|]. split.
  - apply (dict_get_fold_in (fun s : str => s) (tables_assigned engine)).
    + intros y z _ _ E. simpl in E. subst; reflexivity.
    + apply In_kept_schemas. split; assumption.
  - apply tables_assigned_get. exact Ht.
Qed.

Lemma every_kept_table_is_found_witness :
  In (py "shop") (get_schema_names (inspect Fixture.mysql_engine)) /\
  ~ In (py "shop") (excluded_schemas Fixture.mysql_engine) /\
  In (py "orders") (get_table_names (inspect Fixture.mysql_engine) (py "shop")) /\
  exists db_tables of_schema,
    get_db_collections_and_fields Fixture.mysql_engine = Some db_tables
    /\ dict_get db_tables (py "shop") = Some of_schema
    /\ dict_get of_schema (py "shop.orders") = Some [py "id"; py "email"].
Proof.
  assert (Hs : In (py "shop")
                 (get_schema_names (inspect Fixture.mysql_engine)))
    by (simpl; auto).
  assert (Hx : ~ In (py "shop") (excluded_schemas Fixture.mysql_engine))
    by (apply str_in_false; reflexivity).
  assert (Ht : In (py "orders")
                 (get_table_names (inspect Fixture.mysql_engine) (py "shop")))
    by (simpl; auto).
  split; [exact Hs | split; [exact Hx | split; [exact Ht|]]].
  exact (every_kept_table_is_found Fixture.mysql_engine (py "shop")
           (py "orders") Hs Hx Ht).
Defined.

(** X2: the mapping is a proper dict at both levels (no key twice); its keys
    are exactly the listed schemas that are not excluded, so looking up any
    other schema finds nothing; and the keys under a schema are exactly the
    qualified names of that schema's tables. *)
Theorem mapping_is_a_proper_dict (engine : Engine) :
  exists db_tables,
    get_db_collections_and_fields engine = Some db_tables
    /\ NoDup (keys db_tables)
    /\ (forall schema,
          In schema (keys db_tables) <->
          In schema (get_schema_names (inspect engine))
          /\ ~ In schema (excluded_schemas engine))
    /\ (forall schema,
          dict_get db_tables schema = None <->
          ~ (In schema (get_schema_names (inspect engine))
             /\ ~ In schema (excluded_schemas engine)))
    /\ (forall schema of_schema,
          In (schema, of_schema) db_tables ->
          NoDup (keys of_schema)
          /\ forall key,
               In key (keys of_schema) <->
               exists table,
                 In table (get_table_names (inspect engine) schema)
                 /\ key = schema ++ py "." ++ table).
Proof.
  eexists. split; [apply get_db_collections_and_fields_fold|].
  set (db := fold_left _ _ _).
  assert (N : NoDup (keys db)).
  { apply (NoDup_keys_fold (fun s : str => s) (tables_assigned engine)).
    constructor. }
  assert (K : forall schema,
            In schema (keys db) <->
            In schema (get_schema_names (inspect engine))
            /\ ~ In schema (excluded_schemas engine)).
  { intros schema. unfold db.
    rewrite (In_keys_fold (fun s : str => s) (tables_assigned engine)).
    rewrite map_id, In_kept_schemas. simpl. tauto. }
  split; [exact N | split; [exact K | split]].
  - intros schema. rewrite dict_get_None, K. reflexivity.
  - intros schema of_schema H.
    assert (E : of_schema = tables_assigned engine schema).
    { apply In_dict_get in H; [|exact N].
      assert (Hk : In schema (kept_schemas engine)).
      { apply In_kept_schemas, K, In_keys. apply dict_get_In in H. eauto. }
      assert (G : dict_get db schema = Some (tables_assigned engine schema)).
      { apply (dict_get_fold_in (fun s : str => s) (tables_assigned engine)).
        - intros y z _ _ E. simpl in E. subst; reflexivity.
        - exact Hk. }
      rewrite H in G. injection G; auto. }
    subst of_schema. split.
    + apply (NoDup_keys_fold (qualified schema) (columns_of engine schema)).
      constructor.
    + intros key. rewrite tables_assigned_keys, in_map_iff. split.
      * intros [table [E H']]. exists table. auto.
      * intros [table [H' E]]. exists table. auto.
Qed.

(** X3: when the inspector lists no schema twice and no table of a schema
    twice, the mapping holds the schemas that are not excluded in inspector
    order, each with its tables in inspector order under their qualified
    names, each with its column names in order. *)
Theorem mapping_in_inspector_order (engine : Engine) :
  NoDup (get_schema_names (inspect engine)) ->
  (forall schema, In schema (get_schema_names (inspect engine)) ->
                  NoDup (get_table_names (inspect engine) schema)) ->
  get_db_collections_and_fields engine
  = Some (map (fun schema =>
                 (schema,
                  map (fun table =>
                         (schema ++ py "." ++ table,
                          map column_name
                            (get_columns (inspect engine) table schema)))
                      (get_table_names (inspect engine) schema)))
              (filter (fun schema =>
                         negb (str_in schema (excluded_schemas engine)))
                      (get_schema_names (inspect engine)))).
Proof.
  intros Ns Nt. rewrite get_db_collections_and_fields_fold. f_equal.
  rewrite (fold_fresh (fun s : str => s) (tables_assigned engine));
    [| rewrite map_id; apply NoDup_filter; exact Ns | intros x _ []].
  simpl. apply map_ext_in. intros schema H.
  apply In_kept_schemas in H. destruct H as [H _].
  rewrite tables_assigned_in_order by (apply Nt; exact H). reflexivity.
Qed.

Lemma mapping_is_a_proper_dict_witness :
  exists db_tables,
    get_db_collections_and_fields Fixture.mysql_engine = Some db_tables
    /\ dict_get db_tables (py "mysql") = None
    /\ dict_get db_tables (py "no_such_schema") = None.
Proof.
  destruct (mapping_is_a_proper_dict Fixture.mysql_engine)
    as [db [E [_ [_ [G _]]]]].
  exists db. split; [exact E|]. split; apply G.
  - intros [_ H]. apply H. simpl. auto.
  - intros [H _]. simpl in H.
    repeat (destruct H as [H|H]; [discriminate H|]). exact H.
Defined.

Lemma mapping_in_inspector_order_witness :
  NoDup (get_schema_names (inspect Sample.postgres_engine)) /\
  get_db_collections_and_fields Sample.postgres_engine
  = Some [(py "public",
           [(py "public.users", [py "id"; py "email"]);
            (py "public.orders", [py "id"])]);
          (py "audit", [(py "audit.log", [py "id"])])].
Proof.
  assert (Ns : NoDup (get_schema_names (inspect Sample.postgres_engine))).
  { simpl. repeat constructor; simpl; intuition discriminate. }
  assert (Nt : forall schema,
            In schema (get_schema_names (inspect Sample.postgres_engine)) ->
            NoDup (get_table_names (inspect Sample.postgres_engine) schema)).
  { simpl. intros schema [<-|[<-|[<-|[]]]]; simpl;
      repeat constructor; simpl; intuition discriminate. }
  split; [exact Ns|].
  exact (mapping_in_inspector_order Sample.postgres_engine Ns Nt).
Defined.

(* ===================================================================== *)
(** ** Collection Builder and generate_dataset: nothing is lost *)
(* ===================================================================== *)

Lemma built_fields_names (table : list str) :
  map field_name
    (map (fun column =>
            mkField column
              (py "Fides Generated Description for Column: " ++ column)
              (Some []))
         table)
  = table.
Proof.
  induction table as [|column table IH]; [reflexivity|].
  cbn [map field_name]. rewrite IH. reflexivity.
Qed.

Lemma built_collections_names (schema : dict (list str)) :
  map (fun c => (collection_name c, map field_name (fields c)))
    (map (fun '(table_name, table) =>
            mkCollection table_name
              (py "Fides Generated Description for Table: " ++ table_name)
              None
              (map (fun column =>
                      mkField column
                        (py "Fides Generated Description for Column: "
                            ++ column)
                        (Some []))
                   table))
         schema)
  = schema.
Proof.
  induction schema as [|[table_name table] schema IH]; [reflexivity|].
  cbn [map collection_name fields]. rewrite IH, built_fields_names.
  reflexivity.
Qed.

Lemma built_datasets_names (db_tables : dict (dict (list str))) :
  names_of_datasets (create_dataset_collections db_tables) = db_tables.
Proof.
  unfold names_of_datasets, create_dataset_collections.
  induction db_tables as [|[schema_name schema] db IH]; [reflexivity|].
  cbn [map fides_key collections]. rewrite IH, built_collections_names.
  reflexivity.
Qed.

(** X4: the schema, table and column names, with their order, can be read
    back from the datasets that [create_dataset_collections] builds: the
    fides key of a dataset is the schema name, the name of a collection is
    the key of the table, the names of its fields are the columns. *)
Theorem create_dataset_collections_keeps_names
    (db_tables : dict (dict (list str))) :
  names_of_datasets (create_dataset_collections db_tables) = db_tables
  /\ map name (create_dataset_collections db_tables) = keys db_tables.
Proof.
  split; [apply built_datasets_names|].
  unfold create_dataset_collections, keys.
  rewrite map_map. apply map_ext. intros [schema_name schema]. reflexivity.
Qed.

(** X5: [generate_dataset] never fails with a [KeyError]; it writes one
    manifest, under [dataset], to the file it was given and then reports
    success; the names read back from the datasets written are the mapping
    that the inspector gave for the engine of the connection string; and no
    dataset or collection written has labels, every field has the empty
    list. *)
Theorem generate_dataset_writes_what_was_inspected
    (get_db_engine : str -> Engine) (connection_string file_name : str) :
  exists db_tables datasets,
    get_db_collections_and_fields (get_db_engine connection_string)
      = Some db_tables
    /\ generate_dataset get_db_engine connection_string file_name
       = Some [ManifestWritten file_name datasets (py "dataset");
               EchoGreen file_name]
    /\ names_of_datasets datasets = db_tables
    /\ Forall (fun d => data_categories d = None) datasets
    /\ Forall (fun c => collection_data_categories c = None)
         (flat_map collections datasets)
    /\ Forall (fun f => field_data_categories f = Some [])
         (all_fields datasets).
Proof.
  destruct (get_db_collections_and_fields_ok (get_db_engine connection_string))
    as [db [E _]].
  exists db, (create_dataset_collections db).
  split; [exact E|]. split; [unfold generate_dataset; rewrite E; reflexivity|].
  split; [apply built_datasets_names|].
  unfold all_fields, create_dataset_collections.
  repeat split; rewrite Forall_forall.
  - intros d H. apply in_map_iff in H. destruct H as [[s sch] [<- _]].
    reflexivity.
  - intros c H. apply in_flat_map in H. destruct H as [d [Hd Hc]].
    apply in_map_iff in Hd. destruct Hd as [[s sch] [<- _]]. simpl in Hc.
    apply in_map_iff in Hc. destruct Hc as [[t tab] [<- _]]. reflexivity.
  - intros f H. apply in_flat_map in H. destruct H as [c [Hc Hf]].
    apply in_flat_map in Hc. destruct Hc as [d [Hd Hc]].
    apply in_map_iff in Hd. destruct Hd as [[s sch] [<- _]]. simpl in Hc.
    apply in_map_iff in Hc. destruct Hc as [[t tab] [<- _]]. simpl in Hf.
    apply in_map_iff in Hf. destruct Hf as [col [<- _]]. reflexivity.
Qed.

(* ===================================================================== *)
(** ** Parsing a response *)
(* ===================================================================== *)

Lemma split_cons_nonempty (sep : N) (s : str) : split sep s <> [].
Proof.
  destruct s as [|c s]; simpl; [discriminate|].
  destruct (N.eqb c sep); [discriminate|].
  destruct (split sep s); discriminate.
Qed.



Lemma split_pieces_free (sep : N) (s : str) :
  Forall (fun t => ~ In sep t) (split sep s).
Proof.
  induction s as [|c s IH]; simpl.
  - repeat constructor. intros [].
  - destruct (N.eqb_spec c sep) as [E|E].
    + constructor; [intros [] | exact IH].
    + destruct (split sep s) as [|w ws]; [repeat constructor; simpl; tauto|].
      inversion IH; subst. constructor; [simpl; tauto | assumption].
Qed.

Lemma split_length (sep : N) (s : str) :
  length (split sep s) = S (length (filter (N.eqb sep) s)).
Proof.
  induction s as [|c s IH]; simpl; [reflexivity|].
  rewrite (N.eqb_sym sep c). destruct (N.eqb c sep); simpl.
  - rewrite IH. reflexivity.
  - destruct (split sep s) as [|w ws] eqn:E;
      [exfalso; exact (split_cons_nonempty _ _ E)|].
    simpl in *. exact IH.
Qed.

Lemma lstrip_incl (s : str) (c : N) : In c (lstrip s) -> In c s.
Proof.
  induction s as [|x s IH]; simpl; [tauto|].
  destruct (isspace x); simpl; tauto.
Qed.

Lemma strip_incl (s : str) (c : N) : In c (strip s) -> In c s.
Proof.
  unfold strip, rstrip. intros H.
  apply in_rev, lstrip_incl, in_rev, lstrip_incl in H. exact H.
Qed.

Lemma lstrip_app_nonspace (l : str) (c : N) :
  isspace c = false -> lstrip (l ++ [c]) = lstrip l ++ [c].
Proof.
  intros W. induction l as [|x l IH]; simpl.
  - rewrite W. reflexivity.
  - destruct (isspace x); [exact IH | reflexivity].
Qed.

Lemma lstrip_fixed (s : str) : lstrip (lstrip s) = lstrip s.
Proof.
  induction s as [|x s IH]; simpl; [reflexivity|].
  destruct (isspace x) eqn:W; [exact IH|]. simpl. rewrite W. reflexivity.
Qed.

Lemma rstrip_fixed (s : str) : rstrip (rstrip s) = rstrip s.
Proof.
  unfold rstrip. rewrite rev_involutive, lstrip_fixed. reflexivity.
Qed.

Lemma rstrip_cons_nonspace (c : N) (s : str) :
  isspace c = false -> rstrip (c :: s) = c :: rstrip s.
Proof.
  intros W. unfold rstrip. simpl.
  rewrite lstrip_app_nonspace by exact W.
  rewrite rev_app_distr. reflexivity.
Qed.

(** Trimming a trimmed string changes nothing. *)
Lemma strip_fixed (s : str) : strip (strip s) = strip s.
Proof.
  unfold strip.
  destruct (lstrip s) as [|c u] eqn:E.
  - reflexivity.
  - assert (W : isspace c = false).
    { clear - E. induction s as [|x s IH]; simpl in E; [discriminate|].
      destruct (isspace x) eqn:W; [auto|]. injection E as <- _. exact W. }
    rewrite rstrip_cons_nonspace by exact W.
    simpl. rewrite W. rewrite rstrip_cons_nonspace by exact W.
    rewrite rstrip_fixed. reflexivity.
Qed.

(** X6: a response is parsed into one token more than it has commas, never
    into the empty list; no token holds a comma, and every token is trimmed:
    trimming it again changes nothing. *)
Theorem parse_response_tokens (response : str) :
  length (parse_response response)
    = S (length (filter (N.eqb comma) response))
  /\ parse_response response <> []
  /\ Forall (fun token => ~ In comma token /\ strip token = token)
       (parse_response response).
Proof.
  unfold parse_response. split; [rewrite length_map; apply split_length|].
  split.
  - intros E. apply map_eq_nil in E. exact (split_cons_nonempty _ _ E).
  - apply Forall_map.
    eapply Forall_impl; [|apply split_pieces_free].
    intros t Ht. split; [|apply strip_fixed].
    intros H. apply Ht. apply strip_incl. exact H.
Qed.



(* ===================================================================== *)
(** ** Category Validator and Prompt Loop: errors and retries *)
(* ===================================================================== *)

(** X8: when [validate_data_categories] raises, the first candidate that is
    not acceptable decides the error: [FidesValidationError] if it fails the
    key grammar, [ValueError] if it passes the grammar and is not in the
    reference list; candidates after it are not looked at. *)
Theorem validate_reports_first_offender (grammar : str -> bool)
    (categories valid_categories : list str) (e : exn) :
  validate_data_categories grammar categories valid_categories = Some e <->
  exists good bad rest,
    categories = good ++ bad :: rest
    /\ Forall (fun c => grammar c = true /\ In c valid_categories) good
    /\ ((grammar bad = false /\ e = FidesValidationError)
        \/ (grammar bad = true /\ ~ In bad valid_categories
            /\ e = ValueError)).
Proof.
  induction categories as [|c cs IH]; simpl.
  - split; [discriminate|]. intros [[|? ?] [? [? [E _]]]]; discriminate E.
  - unfold FidesKey_validate. destruct (grammar c) eqn:G.
    + destruct (str_in c valid_categories) eqn:I; simpl.
      * apply str_in_In in I. rewrite IH. split.
        -- intros [good [bad [rest [-> [F H]]]]].
           exists (c :: good), bad, rest. split; [reflexivity|].
           split; [constructor; auto | exact H].
        -- intros [[|g good] [bad [rest [E [F H]]]]]; simpl in E;
             injection E as -> ->.
           ++ exfalso. destruct H as [[H _]|[_ [H _]]]; [congruence | tauto].
           ++ exists good, bad, rest. inversion F; auto.
      * apply str_in_false in I. split.
        -- intros H; injection H as <-.
           exists [], c, cs. split; [reflexivity|]. split; [constructor|].
           right; auto.
        -- intros [[|g good] [bad [rest [E [F H]]]]]; simpl in E;
             injection E as -> ->.
           ++ destruct H as [[H _]|[_ [_ ->]]]; [congruence | reflexivity].
           ++ exfalso. inversion F as [|? ? [_ Hg] _]; subst. tauto.
    + split.
      * intros H; injection H as <-.
        exists [], c, cs. split; [reflexivity|]. split; [constructor|].
        left; auto.
      * intros [[|g good] [bad [rest [E [F H]]]]]; simpl in E;
          injection E as -> ->.
        -- destruct H as [[_ ->]|[H _]]; [reflexivity | congruence].
        -- exfalso. inversion F as [|? ? [Hg _] _]; subst. congruence.
Qed.

Section PromptLoopFacts.

Variable grammar : str -> bool.
Variable member : dataset_member.
Variable valid_categories : list str.

Lemma prompt_loop_raises (validate : bool) (lines : list str)
    (oks : list bool) (e : exn) :
  out (get_data_categories_annotation grammar member valid_categories validate
         (mkOperator lines oks)) = Raise e ->
  e = AnnotationAbortError
  /\ exists tr,
       trace (get_data_categories_annotation grammar member valid_categories
                validate (mkOperator lines oks))
       = tr ++ [Confirm].
Proof.
  revert validate oks. induction lines as [|line lines IH]; intros validate oks.
  - discriminate.
  - rewrite prompt_step. cbv zeta.
    destruct (strs_eqb (parse_response line) [py "s"]); [discriminate|].
    destruct (strs_eqb (parse_response line) [py "q"]).
    + destruct oks as [|[] oks]; simpl; [discriminate | |].
      * intros E; injection E as <-. split; [reflexivity|].
        exists [Prompt member]. reflexivity.
      * intros E. destruct (IH _ _ E) as [-> [tr Et]]. split; [reflexivity|].
        exists (Prompt member :: Confirm :: tr). rewrite Et. reflexivity.
    + destruct validate; [|discriminate].
      destruct (validate_data_categories grammar (parse_response line)
                  valid_categories) as [e'|] eqn:V; [|discriminate].
      destruct (validate_raises _ _ _ V) as [-> | ->]; simpl;
        intros E; destruct (IH _ _ E) as [-> [tr Et]];
        (split; [reflexivity|]);
        exists (Prompt member :: Secho (MsgInvalid (parse_response line)) :: tr);
        rewrite Et; reflexivity.
Qed.

Lemma prompt_loop_returns_valid (lines : list str) (oks : list bool)
    (cats : list str) :
  out (get_data_categories_annotation grammar member valid_categories true
         (mkOperator lines oks)) = Return cats ->
  all_valid grammar valid_categories cats
  /\ (cats = [] \/ exists line, In line lines /\ cats = parse_response line).
Proof.
  revert oks. induction lines as [|line lines IH]; intros oks.
  - discriminate.
  - rewrite prompt_step. cbv zeta.
    destruct (strs_eqb (parse_response line) [py "s"]).
    { simpl. intros E; injection E as <-. split; [constructor | auto]. }
    assert (K : forall oks',
              out (get_data_categories_annotation grammar member
                     valid_categories true (mkOperator lines oks'))
                = Return cats ->
              all_valid grammar valid_categories cats
              /\ (cats = [] \/
                  exists l, In l (line :: lines) /\ cats = parse_response l)).
    { intros oks' E. destruct (IH _ E) as [H1 [H2|[l [H2 H3]]]];
        (split; [exact H1|]); [left; exact H2 | right].
      exists l. split; [right; exact H2 | exact H3]. }
    destruct (strs_eqb (parse_response line) [py "q"]).
    + destruct oks as [|[] oks]; simpl; try discriminate. apply K.
    + destruct (validate_data_categories grammar (parse_response line)
                  valid_categories) as [e'|] eqn:V.
      * destruct (validate_raises _ _ _ V) as [-> | ->]; simpl; apply K.
      * simpl. intros E; injection E as <-. split.
        -- apply validate_ok_iff. exact V.
        -- right. exists line. split; [left; reflexivity | reflexivity].
Qed.

(** X9: the prompt loop lets no validation error out: the only exception
    it raises is [AnnotationAbortError], and the last thing it did before
    raising it was to ask for the confirmation. *)
Theorem prompt_loop_raises_only_abort (validate : bool) (op : operator)
    (e : exn) :
  out (get_data_categories_annotation grammar member valid_categories validate
         op) = Raise e ->
  e = AnnotationAbortError
  /\ exists tr,
       trace (get_data_categories_annotation grammar member valid_categories
                validate op)
       = tr ++ [Confirm].
Proof. destruct op as [lines oks]. apply prompt_loop_raises. Qed.

(** X10: with validation on, a list that the prompt loop returns passes the
    validator (every label satisfies the key grammar and is in the reference
    list), and it is the empty list or the parse of one of the lines the
    operator entered. *)
Theorem prompt_loop_returns_validated_labels (op : operator)
    (cats : list str) :
  out (get_data_categories_annotation grammar member valid_categories true op)
    = Return cats ->
  Forall (fun c => grammar c = true /\ In c valid_categories) cats
  /\ (cats = [] \/
      exists line, In line (answers op) /\ cats = parse_response line).
Proof. destruct op as [lines oks]. apply prompt_loop_returns_valid. Qed.

(** X11: with validation on, responses that are neither skip nor quit and
    that the validator rejects are each answered by the error message naming
    the response and by the same prompt again; the result of the call is the
    result on the lines that follow them. *)
Theorem rejected_responses_are_asked_again (rejected lines : list str)
    (oks : list bool) :
  Forall (fun line =>
            parse_response line <> [py "s"]
            /\ parse_response line <> [py "q"]
            /\ validate_data_categories grammar (parse_response line)
                 valid_categories <> None)
         rejected ->
  get_data_categories_annotation grammar member valid_categories true
    (mkOperator (rejected ++ lines) oks)
  = after
      (flat_map (fun line =>
                   [Prompt member; Secho (MsgInvalid (parse_response line))])
                rejected)
      (get_data_categories_annotation grammar member valid_categories true
         (mkOperator lines oks)).
Proof.
  induction 1 as [|line rejected [Hs [Hq Hv]] _ IH]; simpl.
  - destruct (get_data_categories_annotation _ _ _ _ _). reflexivity.
  - rewrite prompt_step. cbv zeta.
    rewrite (strs_eqb_neq Hs), (strs_eqb_neq Hq).
    destruct (validate_data_categories grammar (parse_response line)
                valid_categories) as [e|] eqn:V; [|contradiction].
    destruct (validate_raises _ _ _ V) as [-> | ->]; rewrite IH; reflexivity.
Qed.

End PromptLoopFacts.

Lemma prompt_loop_raises_only_abort_witness :
  out (get_data_categories_annotation Fixture.key_grammar
         (MDataset Fixture.shop) [Fixture.label] true
         (mkOperator [py "bogus"; py " q "] [true]))
  = Raise AnnotationAbortError
  /\ exists tr,
       trace (get_data_categories_annotation Fixture.key_grammar
                (MDataset Fixture.shop) [Fixture.label] true
                (mkOperator [py "bogus"; py " q "] [true]))
       = tr ++ [Confirm].
Proof.
  split; [reflexivity|].
  exact (proj2 (prompt_loop_raises_only_abort Fixture.key_grammar
                  (MDataset Fixture.shop) [Fixture.label] true
                  (mkOperator [py "bogus"; py " q "] [true]) eq_refl)).
Defined.

Lemma prompt_loop_returns_validated_labels_witness :
  out (get_data_categories_annotation Fixture.key_grammar
         (MDataset Fixture.shop) [Fixture.label] true
         (mkOperator [py "bogus"; py " user.name"] []))
  = Return [Fixture.label]
  /\ Forall (fun c => Fixture.key_grammar c = true /\ In c [Fixture.label])
       [Fixture.label].
Proof.
  split; [reflexivity|].
  exact (proj1 (prompt_loop_returns_validated_labels Fixture.key_grammar
                  (MDataset Fixture.shop) [Fixture.label]
                  (mkOperator [py "bogus"; py " user.name"] []) eq_refl)).
Defined.

Lemma rejected_responses_are_asked_again_witness :
  out (get_data_categories_annotation Fixture.key_grammar
         (MDataset Fixture.shop) [Fixture.label] true
         (mkOperator ([py "bogus"; py "not a key"] ++ [py "user.name"]) []))
  = out (get_data_categories_annotation Fixture.key_grammar
           (MDataset Fixture.shop) [Fixture.label] true
           (mkOperator [py "user.name"] [])).
Proof.
  exact (f_equal (@out (list str))
           (rejected_responses_are_asked_again Fixture.key_grammar
              (MDataset Fixture.shop) [Fixture.label]
              (rejected := [py "bogus"; py "not a key"]) [py "user.name"] []
              ltac:(repeat constructor;
                    solve [ intros H; vm_compute in H; discriminate H ]))).
Defined.

(* ===================================================================== *)
(** ** annotate_dataset: exceptions and the write *)
(* ===================================================================== *)

Section RaiseRules.






End RaiseRules.

Section WalkNeverRaises.

Variable grammar : str -> bool.
Variable existing_categories : list str.
Variables annotate_all validate : bool.






End WalkNeverRaises.


(** X13: a run of [annotate_dataset] that returns has written exactly one
    manifest, as the last thing it did, to the file it read and under
    [dataset]; a run that does not return has written nothing. *)
Theorem annotate_dataset_writes_once_at_the_end
    (grammar : str -> bool) (ingest_manifests : str -> list Dataset)
    (list_resource : str -> list str) (dataset_file resource_type : str)
    (annotate_all validate : bool) (op : operator) :
  let r := annotate_dataset grammar ingest_manifests list_resource
             dataset_file resource_type annotate_all validate op in
  (out r = Return tt ->
   exists tr output,
     trace r = tr ++ [WriteManifest dataset_file output (py "dataset")]
     /\ written tr = [])
  /\ (out r <> Return tt -> written (trace r) = []).
Proof.
  cbv zeta. rewrite annotate_dataset_run. cbv zeta.
  destruct (walk_sat grammar ingest_manifests list_resource dataset_file
              resource_type annotate_all validate op) as [T _].
  apply walk_events_write_nothing in T.
  destruct (out (walk_datasets _ _ _ _ _ _ _)) as [[[d|] []]| |]; simpl; split;
    try discriminate; try congruence; try (intros _; exact T);
    intros _; eexists (_ :: _), _; (split; [reflexivity | exact T]).
Qed.

Lemma annotate_dataset_writes_once_at_the_end_witness :
  out (annotate_dataset Fixture.key_grammar Fixture.manifest
         Fixture.categories Fixture.file Fixture.resource false true
         Fixture.quitting_operator) = Return tt
  /\ exists tr output,
       trace (annotate_dataset Fixture.key_grammar Fixture.manifest
                Fixture.categories Fixture.file Fixture.resource false true
                Fixture.quitting_operator)
       = tr ++ [WriteManifest Fixture.file output (py "dataset")]
       /\ written tr = [].
Proof.
  split; [reflexivity|].
  exact (proj1 (annotate_dataset_writes_once_at_the_end Fixture.key_grammar
                  Fixture.manifest Fixture.categories Fixture.file
                  Fixture.resource false true Fixture.quitting_operator)
           eq_refl).
Defined.

(* ===================================================================== *)
(** ** Annotation under validation: what ends up in a label set *)
(* ===================================================================== *)

Section EnteredFacts.

Variable grammar : str -> bool.
Variable existing_categories : list str.
Variable annotate_all : bool.

Lemma labels_entered_same (cats : option (list str)) :
  labels_entered grammar existing_categories cats cats.
Proof. left; reflexivity. Qed.

Lemma labels_entered_new (old : option (list str)) (cats : list str) :
  truthy old = false -> all_valid grammar existing_categories cats ->
  labels_entered grammar existing_categories old (Some cats).
Proof. intros T V. right. eauto. Qed.

Lemma fields_entered_same (fs : list DatasetField) :
  Forall2 (field_entered grammar existing_categories) fs fs.
Proof.
  induction fs; constructor; [|assumption].
  split; [reflexivity | apply labels_entered_same].
Qed.

Lemma collections_entered_same (cs : list DatasetCollection) :
  Forall2 (collection_entered grammar existing_categories) cs cs.
Proof.
  induction cs; constructor; [|assumption].
  split; [reflexivity|].
  split; [apply labels_entered_same | apply fields_entered_same].
Qed.

Lemma sat_prompt_valid (member : dataset_member) :
  sat (fun _ => True) (all_valid grammar existing_categories)
    (get_data_categories_annotation grammar member existing_categories true).
Proof.
  intros [lines oks]. split.
  - apply Forall_forall. intros; exact I.
  - intros cats E. apply (prompt_loop_returns_valid _ _ _ _ _ E).
Qed.

Lemma sat_secho_any {Q : unit -> Prop} (m : message) :
  Q tt -> sat (fun _ => True) Q (secho m).
Proof. intros H. apply sat_emit; [exact I | exact H]. Qed.

Lemma annotate_fields_entered (table : DatasetCollection)
    (flds : list DatasetField) :
  sat (fun _ => True)
    (Forall2 (field_entered grammar existing_categories) flds)
    (annotate_fields grammar existing_categories true table flds).
Proof.
  induction flds as [|field flds IH]; simpl.
  - apply sat_ret. constructor.
  - destruct (truthy (field_data_categories field)) eqn:T; simpl.
    + eapply sat_bind; [exact IH|]. intros flds'' K.
      apply sat_ret. constructor; [|exact K].
      split; [reflexivity | apply labels_entered_same].
    + eapply sat_bind; [apply (sat_secho_any (Q := fun _ => True)); exact I|].
      intros _ _.
      eapply sat_bind with
        (Q := fun step => match step with
                          | Some f' =>
                              field_entered grammar existing_categories field f'
                          | None => True
                          end).
      * apply sat_try; [|apply sat_ret; exact I].
        eapply sat_bind; [apply sat_prompt_valid|]. intros cats V.
        eapply sat_bind; [apply (sat_secho_any (Q := fun _ => True)); exact I|].
        intros _ _. apply sat_ret.
        split; [reflexivity | apply labels_entered_new; assumption].
      * intros [f'|] K.
        -- eapply sat_bind; [exact IH|]. intros flds'' K'.
           apply sat_ret. constructor; assumption.
        -- apply sat_ret. apply fields_entered_same.
Qed.

Lemma annotate_tables_entered (tables : list DatasetCollection) :
  sat (fun _ => True)
    (Forall2 (collection_entered grammar existing_categories) tables)
    (annotate_tables grammar existing_categories annotate_all true tables).
Proof.
  induction tables as [|table tables IH]; simpl.
  - apply sat_ret. constructor.
  - eapply sat_bind; [apply (sat_secho_any (Q := fun _ => True)); exact I|].
    intros _ _.
    eapply sat_bind with
      (Q := fun step => match step with
                        | Some t' =>
                            collection_name t' = collection_name table /\
                            labels_entered grammar existing_categories
                              (collection_data_categories table)
                              (collection_data_categories t') /\
                            fields t' = fields table
                        | None => True
                        end).
    + destruct (annotate_all && negb (truthy (collection_data_categories table)))
        eqn:C.
      * apply andb_true_iff in C. destruct C as [_ T].
        apply negb_true_iff in T.
        apply sat_try; [|apply sat_ret; exact I].
        eapply sat_bind; [apply (sat_secho_any (Q := fun _ => True)); exact I|].
        intros _ _.
        eapply sat_bind; [apply sat_prompt_valid|]. intros cats V.
        apply sat_ret.
        split; [reflexivity|].
        split; [apply labels_entered_new; assumption | reflexivity].
      * apply sat_ret.
        split; [reflexivity|].
        split; [apply labels_entered_same | reflexivity].
    + intros [t'|] K.
      * destruct K as [Kn [Kc Kf]].
        eapply sat_bind; [apply annotate_fields_entered|].
        intros flds' Kflds.
        eapply sat_bind; [exact IH|]. intros tables'' K'.
        apply sat_ret. constructor; [|exact K'].
        split; [exact Kn|]. split; [exact Kc|].
        simpl. rewrite <- Kf. exact Kflds.
      * apply sat_ret. apply collections_entered_same.
Qed.

Lemma annotate_dataset_body_entered (dataset : Dataset) :
  sat (fun _ => True)
    (fun r => dataset_entered grammar existing_categories dataset (fst r))
    (annotate_dataset_body grammar existing_categories annotate_all true
       dataset).
Proof.
  unfold annotate_dataset_body.
  eapply sat_bind; [apply (sat_secho_any (Q := fun _ => True)); exact I|].
  intros _ _.
  eapply sat_bind with
    (Q := fun step => match step with
                      | Some d' =>
                          fides_key d' = fides_key dataset /\
                          labels_entered grammar existing_categories
                            (data_categories dataset) (data_categories d') /\
                          collections d' = collections dataset
                      | None => True
                      end).
  - destruct (annotate_all && negb (truthy (data_categories dataset))) eqn:C.
    + apply andb_true_iff in C. destruct C as [_ T].
      apply negb_true_iff in T.
      apply sat_try; [|apply sat_ret; exact I].
      eapply sat_bind; [apply (sat_secho_any (Q := fun _ => True)); exact I|].
      intros _ _.
      eapply sat_bind; [apply sat_prompt_valid|]. intros cats V.
      apply sat_ret.
      split; [reflexivity|].
      split; [apply labels_entered_new; assumption | reflexivity].
    + apply sat_ret.
      split; [reflexivity|].
      split; [apply labels_entered_same | reflexivity].
  - intros [d'|] K.
    + destruct K as [Kk [Kc Kt]].
      eapply sat_bind; [apply annotate_tables_entered|].
      intros tables' Kts. apply sat_ret. simpl.
      split; [exact Kk|]. split; [exact Kc|].
      rewrite <- Kt. exact Kts.
    + apply sat_ret. simpl.
      split; [reflexivity|].
      split; [apply labels_entered_same | apply collections_entered_same].
Qed.

Lemma walk_datasets_entered (datasets : list Dataset)
    (current : option Dataset) :
  sat (fun _ => True)
    (fun r => forall d', fst r = Some d' ->
                current = Some d' \/
                exists d, In d datasets
                          /\ dataset_entered grammar existing_categories d d')
    (walk_datasets grammar existing_categories annotate_all true
       datasets current).
Proof.
  revert current.
  induction datasets as [|dataset datasets IH]; intros current; simpl.
  - apply sat_ret. simpl. auto.
  - eapply sat_bind; [apply annotate_dataset_body_entered|].
    intros [d1 e] K. simpl in K |- *.
    destruct e.
    + eapply sat_weaken; [apply IH|].
      simpl. intros r Hr d' E. destruct (Hr d' E) as [H|[d [H1 H2]]].
      * injection H as <-. right. exists dataset. split; [left; reflexivity | exact K].
      * right. exists d. split; [right; exact H1 | exact H2].
    + apply sat_ret. simpl. intros d' E. injection E as <-.
      right. exists dataset. split; [left; reflexivity | exact K].
Qed.

End EnteredFacts.

(** X14: with validation on, every dataset that [annotate_dataset] writes
    stems from a dataset of the manifest with the same key, collections and
    fields, and every label set in it is either the one the manifest had or,
    where the manifest had none, a list whose labels all satisfy the key
    grammar and are all among the listed categories. *)
Theorem written_labels_are_valid_categories
    (grammar : str -> bool) (ingest_manifests : str -> list Dataset)
    (list_resource : str -> list str) (dataset_file resource_type : str)
    (annotate_all : bool) (op : operator) (output : list Dataset)
    (d' : Dataset) :
  In output
     (written (trace (annotate_dataset grammar ingest_manifests list_resource
                        dataset_file resource_type annotate_all true op))) ->
  In d' output ->
  exists d,
    In d (ingest_manifests dataset_file)
    /\ dataset_entered grammar (list_resource resource_type) d d'.
Proof.
  rewrite written_by_run. intros Ho Hd.
  destruct (walk_datasets_entered grammar (list_resource resource_type)
              annotate_all (ingest_manifests dataset_file) None op)
    as [_ R].
  destruct (out (walk_datasets _ _ _ _ _ _ _)) as [[[d|] []]| |];
    simpl in Ho; try contradiction; destruct Ho as [<-|[]]; simpl in Hd;
    try contradiction.
  destruct Hd as [<-|[]].
  destruct (R (Some d, Exhausted) eq_refl d eq_refl) as [H|H];
    [discriminate | exact H].
Qed.

Lemma written_labels_are_valid_categories_witness :
  In [Fixture.web_labelled]
     (written (trace (annotate_dataset Fixture.key_grammar Fixture.manifest
                        Fixture.categories Fixture.file Fixture.resource
                        true true Fixture.labelling_operator)))
  /\ In Fixture.web_labelled [Fixture.web_labelled]
  /\ exists d,
       In d (Fixture.manifest Fixture.file)
       /\ dataset_entered Fixture.key_grammar
            (Fixture.categories Fixture.resource) d Fixture.web_labelled.
Proof.
  assert (Ho : In [Fixture.web_labelled]
                 (written (trace (annotate_dataset Fixture.key_grammar
                                    Fixture.manifest Fixture.categories
                                    Fixture.file Fixture.resource true true
                                    Fixture.labelling_operator))))
    by (vm_compute; left; reflexivity).
  assert (Hd : In Fixture.web_labelled [Fixture.web_labelled])
    by (left; reflexivity).
  split; [exact Ho | split; [exact Hd|]].
  exact (@written_labels_are_valid_categories Fixture.key_grammar
           Fixture.manifest Fixture.categories Fixture.file Fixture.resource
           true Fixture.labelling_operator [Fixture.web_labelled]
           Fixture.web_labelled Ho Hd).
Defined.

(* ===================================================================== *)
(** ** A manifest with nothing left to annotate *)
(* ===================================================================== *)

Section QuietRules.

Lemma quiet_ret {A} (Q : A -> Prop) (a : A) : Q a -> quiet Q (ret a).
Proof. intros H op. exists a, []. simpl. auto. Qed.

Lemma quiet_secho (Q : unit -> Prop) (m : message) : Q tt -> quiet Q (secho m).
Proof. intros H op. exists tt, [Secho m]. simpl. auto. Qed.

Lemma quiet_bind {A B} (Q : A -> Prop) (R : B -> Prop) (m : M A)
    (k : A -> M B) :
  quiet Q m -> (forall a, Q a -> quiet R (k a)) -> quiet R (bind m k).
Proof.
  intros Hm Hk op.
  destruct (Hm op) as [a [tr [E [Ep [Ew Qa]]]]].
  destruct (Hk a Qa op) as [b [tr' [E' [Ep' [Ew' Rb]]]]].
  exists b, (tr ++ tr'). unfold bind. rewrite E. simpl. rewrite E'. simpl.
  rewrite prompts_app, written_app, Ep, Ep', Ew, Ew'. auto.
Qed.

Lemma quiet_weaken {A} (Q Q' : A -> Prop) (m : M A) :
  quiet Q m -> (forall a, Q a -> Q' a) -> quiet Q' m.
Proof.
  intros H W op. destruct (H op) as [a [tr [E [Ep [Ew Qa]]]]].
  exists a, tr. auto.
Qed.

End QuietRules.

Lemma last_cons_default {A} (a d : A) (l : list A) :
  last (a :: l) d = last l a.
Proof.
  revert a d. induction l as [|b l IH]; intros a d; [reflexivity|].
  change (last (a :: b :: l) d) with (last (b :: l) d).
  rewrite (IH b d), (IH b a). reflexivity.
Qed.

Section QuietWalk.

Variable grammar : str -> bool.
Variable existing_categories : list str.
Variables annotate_all validate : bool.

Lemma annotate_fields_quiet (table : DatasetCollection)
    (flds : list DatasetField) :
  filter (fun f => negb (truthy (field_data_categories f))) flds = [] ->
  quiet (fun r => r = flds)
    (annotate_fields grammar existing_categories validate table flds).
Proof.
  induction flds as [|field flds IH]; simpl; intros F.
  - apply quiet_ret. reflexivity.
  - destruct (negb (truthy (field_data_categories field))); [discriminate|].
    eapply quiet_bind; [apply IH; exact F|].
    intros r ->. apply quiet_ret. reflexivity.
Qed.

Lemma with_fields_same (c : DatasetCollection) : with_fields c (fields c) = c.
Proof. destruct c; reflexivity. Qed.

Lemma with_collections_same (d : Dataset) :
  with_collections d (collections d) = d.
Proof. destruct d; reflexivity. Qed.

Lemma annotate_tables_quiet (tables : list DatasetCollection) :
  flat_map (collection_to_prompt annotate_all) tables = [] ->
  quiet (fun r => r = tables)
    (annotate_tables grammar existing_categories annotate_all validate tables).
Proof.
  induction tables as [|table tables IH]; simpl; intros F.
  - apply quiet_ret. reflexivity.
  - apply app_eq_nil in F. destruct F as [Ft F].
    unfold collection_to_prompt in Ft. apply app_eq_nil in Ft.
    destruct Ft as [Fc Ff].
    unfold fields_to_prompt in Ff. apply map_eq_nil in Ff.
    eapply quiet_bind; [apply (quiet_secho (fun _ => True)); exact I|].
    intros _ _.
    destruct (annotate_all && negb (truthy (collection_data_categories table)));
      [discriminate|].
    eapply quiet_bind with (Q := fun step => step = Some table);
      [apply quiet_ret; reflexivity|].
    intros step ->.
    eapply quiet_bind; [apply annotate_fields_quiet; exact Ff|].
    intros flds' ->.
    eapply quiet_bind; [apply IH; exact F|].
    intros tables' ->. apply quiet_ret.
    rewrite with_fields_same. reflexivity.
Qed.

Lemma annotate_dataset_body_quiet (dataset : Dataset) :
  dataset_to_prompt annotate_all dataset = [] ->
  quiet (fun r => r = (dataset, Exhausted))
    (annotate_dataset_body grammar existing_categories annotate_all validate
       dataset).
Proof.
  unfold dataset_to_prompt, annotate_dataset_body. intros F.
  apply app_eq_nil in F. destruct F as [Fd Fc].
  eapply quiet_bind; [apply (quiet_secho (fun _ => True)); exact I|].
  intros _ _.
  destruct (annotate_all && negb (truthy (data_categories dataset)));
    [discriminate|].
  eapply quiet_bind with (Q := fun step => step = Some dataset);
    [apply quiet_ret; reflexivity|].
  intros step ->.
  eapply quiet_bind; [apply annotate_tables_quiet; exact Fc|].
  intros tables' ->. apply quiet_ret.
  rewrite with_collections_same. reflexivity.
Qed.

Lemma walk_datasets_quiet (datasets : list Dataset)
    (current : option Dataset) :
  to_prompt annotate_all datasets = [] ->
  quiet (fun r => r = (last (map Some datasets) current, Exhausted))
    (walk_datasets grammar existing_categories annotate_all validate
       datasets current).
Proof.
  revert current. induction datasets as [|dataset datasets IH];
    intros current F.
  - apply quiet_ret. reflexivity.
  - unfold to_prompt in F. simpl in F. apply app_eq_nil in F.
    destruct F as [Fd F]. simpl walk_datasets.
    eapply quiet_bind; [apply annotate_dataset_body_quiet; exact Fd|].
    intros r ->. simpl.
    eapply quiet_weaken; [apply (IH (Some dataset)); exact F|].
    intros r ->.
    rewrite <- (last_cons_default (Some dataset) current (map Some datasets)).
    reflexivity.
Qed.

End QuietWalk.

Lemma flat_map_nil {A B} (f : A -> list B) (l : list A) :
  (forall x, In x l -> f x = []) -> flat_map f l = [].
Proof.
  induction l as [|x l IH]; intros H; simpl; [reflexivity|].
  rewrite (H x (or_introl eq_refl)), IH; [reflexivity|].
  intros y Hy. apply H. right; exact Hy.
Qed.

Lemma filter_none {A} (p : A -> bool) (l : list A) :
  Forall (fun x => p x = false) l -> filter p l = [].
Proof.
  induction 1 as [|x l Hx _ IH]; simpl; [reflexivity|].
  rewrite Hx. exact IH.
Qed.

Lemma filter_all {A} (p : A -> bool) (l : list A) :
  Forall (fun x => p x = true) l -> filter p l = l.
Proof.
  induction 1 as [|x l Hx _ IH]; simpl; [reflexivity|].
  rewrite Hx, IH. reflexivity.
Qed.

(** With every field labelled, and every dataset and collection labelled
    too when annotate-all is on, there is nobody to prompt for. *)
Lemma to_prompt_none (annotate_all : bool) (datasets : list Dataset) :
  Forall (fun f => truthy (field_data_categories f) = true)
    (all_fields datasets) ->
  (annotate_all = true ->
   Forall (fun d => truthy (data_categories d) = true) datasets
   /\ Forall (fun c => truthy (collection_data_categories c) = true)
        (flat_map collections datasets)) ->
  to_prompt annotate_all datasets = [].
Proof.
  intros Ff Fa. unfold to_prompt. apply flat_map_nil. intros d Hd.
  unfold dataset_to_prompt.
  assert (E1 : (if annotate_all && negb (truthy (data_categories d))
                then [MDataset d] else []) = []).
  { destruct annotate_all; [|reflexivity].
    destruct (Fa eq_refl) as [Fd _]. rewrite Forall_forall in Fd.
    rewrite (Fd d Hd). reflexivity. }
  rewrite E1. simpl. apply flat_map_nil. intros c Hc.
  unfold collection_to_prompt, fields_to_prompt.
  assert (E2 : (if annotate_all && negb (truthy (collection_data_categories c))
                then [MCollection c] else []) = []).
  { destruct annotate_all; [|reflexivity].
    destruct (Fa eq_refl) as [_ Fc]. rewrite Forall_forall in Fc.
    rewrite (Fc c); [reflexivity|]. apply in_flat_map. eauto. }
  rewrite E2. simpl. rewrite filter_none; [reflexivity|].
  apply Forall_forall. intros f Hf. rewrite Forall_forall in Ff.
  rewrite (Ff f); [reflexivity|].
  unfold all_fields. apply in_flat_map. exists c. split; [|exact Hf].
  apply in_flat_map. eauto.
Qed.

(** X15: when every field of the manifest has labels, and with annotate-all
    every dataset and collection too, [annotate_dataset] asks nothing and
    reads nothing from the operator, returns, and writes back the last
    dataset of the manifest exactly as it was read. *)
Theorem nothing_to_annotate_asks_nothing
    (grammar : str -> bool) (ingest_manifests : str -> list Dataset)
    (list_resource : str -> list str) (dataset_file resource_type : str)
    (annotate_all validate : bool) (op : operator)
    (datasets : list Dataset) (d : Dataset) :
  ingest_manifests dataset_file = datasets ++ [d] ->
  Forall (fun f => truthy (field_data_categories f) = true)
    (all_fields (datasets ++ [d])) ->
  (annotate_all = true ->
   Forall (fun d => truthy (data_categories d) = true) (datasets ++ [d])
   /\ Forall (fun c => truthy (collection_data_categories c) = true)
        (flat_map collections (datasets ++ [d]))) ->
  let r := annotate_dataset grammar ingest_manifests list_resource
             dataset_file resource_type annotate_all validate op in
  out r = Return tt /\ remaining r = op
  /\ prompts (trace r) = [] /\ written (trace r) = [[d]].
Proof.
  intros Em Ff Fa. cbv zeta. rewrite annotate_dataset_run. cbv zeta.
  rewrite Em.
  destruct (@walk_datasets_quiet grammar (list_resource resource_type)
              annotate_all validate (datasets ++ [d]) None
              (@to_prompt_none annotate_all (datasets ++ [d]) Ff Fa) op)
    as [r [tr [E [Ep [Ew ->]]]]].
  rewrite E. simpl. rewrite map_app. simpl. rewrite last_last. simpl.
  rewrite prompts_app, written_app, Ep, Ew. auto.
Qed.

Lemma nothing_to_annotate_asks_nothing_witness :
  let r := annotate_dataset Fixture.key_grammar
             (fun _ => [Sample.labelled_dataset]) Fixture.categories
             Fixture.file Fixture.resource true true
             Fixture.hesitant_operator in
  out r = Return tt /\ remaining r = Fixture.hesitant_operator
  /\ prompts (trace r) = [] /\ written (trace r) = [[Sample.labelled_dataset]].
Proof.
  apply (@nothing_to_annotate_asks_nothing Fixture.key_grammar
           (fun _ => [Sample.labelled_dataset]) Fixture.categories
           Fixture.file Fixture.resource true true Fixture.hesitant_operator
           [] Sample.labelled_dataset eq_refl).
  - repeat constructor.
  - intros _. split; repeat constructor.
Defined.

(* ===================================================================== *)
(** ** A generated manifest under annotation *)
(* ===================================================================== *)

(** With an operator who skips every prompt, a run prompts for the members
    to prompt for, in walk order. *)
Lemma annotate_dataset_skips
    (grammar : str -> bool) (ingest_manifests : str -> list Dataset)
    (list_resource : str -> list str) (dataset_file resource_type : str)
    (annotate_all validate : bool) (lines : list str) (oks : list bool) :
  Forall is_skip lines ->
  length (to_prompt annotate_all (ingest_manifests dataset_file))
    <= length lines ->
  prompts (trace (annotate_dataset grammar ingest_manifests list_resource
                    dataset_file resource_type annotate_all validate
                    (mkOperator lines oks)))
  = to_prompt annotate_all (ingest_manifests dataset_file).
Proof.
  intros S L. rewrite annotate_dataset_run. cbv zeta.
  destruct (@walk_datasets_skips grammar (list_resource resource_type)
              annotate_all validate (ingest_manifests dataset_file) None
              lines oks S L) as [a [tr [E [Ep _]]]].
  rewrite E. simpl.
  destruct a as [[d|] []]; simpl; rewrite ?prompts_app; simpl;
    rewrite ?app_nil_r; exact Ep.
Qed.

Lemma collections_to_prompt_unlabelled (annotate_all : bool)
    (cs : list DatasetCollection) :
  Forall (fun c => truthy (collection_data_categories c) = false) cs ->
  Forall (fun f => truthy (field_data_categories f) = false)
    (flat_map fields cs) ->
  flat_map (collection_to_prompt annotate_all) cs
  = if annotate_all
    then flat_map (fun c => MCollection c :: map MField (fields c)) cs
    else map MField (flat_map fields cs).
Proof.
  induction 1 as [|c cs Hc _ IH]; simpl; intros Ff.
  - destruct annotate_all; reflexivity.
  - apply Forall_app in Ff. destruct Ff as [Ff Ffs].
    rewrite IH by exact Ffs.
    unfold collection_to_prompt, fields_to_prompt.
    rewrite Hc, filter_all;
      [| eapply Forall_impl; [|exact Ff]; simpl; intros f ->; reflexivity].
    destruct annotate_all; simpl; [reflexivity|].
    rewrite map_app. reflexivity.
Qed.

(** Where nothing has labels, the members to prompt for are all fields, and
    with annotate-all all datasets and collections too. *)
Lemma to_prompt_unlabelled (annotate_all : bool) (datasets : list Dataset) :
  Forall (fun d => truthy (data_categories d) = false) datasets ->
  Forall (fun c => truthy (collection_data_categories c) = false)
    (flat_map collections datasets) ->
  Forall (fun f => truthy (field_data_categories f) = false)
    (all_fields datasets) ->
  to_prompt annotate_all datasets
  = if annotate_all then all_members datasets
    else map MField (all_fields datasets).
Proof.
  unfold to_prompt, all_members, all_fields.
  induction 1 as [|d ds Hd _ IH]; simpl; intros Fc Ff.
  - destruct annotate_all; reflexivity.
  - apply Forall_app in Fc. destruct Fc as [Fc Fcs].
    rewrite flat_map_app in Ff. apply Forall_app in Ff.
    destruct Ff as [Ff Ffs].
    rewrite IH by assumption.
    unfold dataset_to_prompt.
    rewrite Hd, collections_to_prompt_unlabelled by assumption.
    destruct annotate_all; simpl; [reflexivity|].
    rewrite flat_map_app, map_app. reflexivity.
Qed.

Lemma built_collection_field_names (schema : dict (list str)) :
  map field_name
    (flat_map fields
       (map (fun '(table_name, table) =>
               mkCollection table_name
                 (py "Fides Generated Description for Table: " ++ table_name)
                 None
                 (map (fun column =>
                         mkField column
                           (py "Fides Generated Description for Column: "
                               ++ column)
                           (Some []))
                      table))
            schema))
  = flat_map snd schema.
Proof.
  induction schema as [|[t tab] schema IH]; [reflexivity|].
  cbn [map flat_map fields snd]. rewrite map_app, IH, built_fields_names.
  reflexivity.
Qed.

Lemma built_all_field_names (db_tables : dict (dict (list str))) :
  map field_name (all_fields (create_dataset_collections db_tables))
  = flat_map (fun schema => flat_map snd (snd schema)) db_tables.
Proof.
  unfold all_fields, create_dataset_collections.
  induction db_tables as [|[s sch] db IH]; [reflexivity|].
  cbn [map flat_map collections snd].
  rewrite flat_map_app, map_app, IH, built_collection_field_names.
  reflexivity.
Qed.

(** X16: a manifest as [create_dataset_collections] builds it has no labels
    anywhere, so [annotate_dataset] run on it asks about every field, one
    per column, in the order of the mapping, and with annotate-all about
    every dataset and collection too (shown with an operator who skips
    every prompt). *)
Theorem generated_manifest_is_asked_about_in_full
    (grammar : str -> bool) (ingest_manifests : str -> list Dataset)
    (list_resource : str -> list str) (dataset_file resource_type : str)
    (annotate_all validate : bool) (db_tables : dict (dict (list str)))
    (lines : list str) (oks : list bool) :
  let datasets := create_dataset_collections db_tables in
  ingest_manifests dataset_file = datasets ->
  Forall is_skip lines ->
  length (if annotate_all then all_members datasets
          else map MField (all_fields datasets)) <= length lines ->
  prompts (trace (annotate_dataset grammar ingest_manifests list_resource
                    dataset_file resource_type annotate_all validate
                    (mkOperator lines oks)))
  = (if annotate_all then all_members datasets
     else map MField (all_fields datasets))
  /\ map field_name (all_fields datasets)
     = flat_map (fun schema => flat_map snd (snd schema)) db_tables.
Proof.
  cbv zeta. intros Em S L.
  assert (U : to_prompt annotate_all (create_dataset_collections db_tables)
              = if annotate_all
                then all_members (create_dataset_collections db_tables)
                else map MField (all_fields (create_dataset_collections db_tables))).
  { apply to_prompt_unlabelled; apply Forall_forall.
    - intros d H. unfold create_dataset_collections in H.
      apply in_map_iff in H. destruct H as [[s sch] [<- _]]. reflexivity.
    - intros c H. apply in_flat_map in H. destruct H as [d [Hd Hc]].
      unfold create_dataset_collections in Hd.
      apply in_map_iff in Hd. destruct Hd as [[s sch] [<- _]]. simpl in Hc.
      apply in_map_iff in Hc. destruct Hc as [[t tab] [<- _]]. reflexivity.
    - intros f H. unfold all_fields in H.
      apply in_flat_map in H. destruct H as [c [Hc Hf]].
      apply in_flat_map in Hc. destruct Hc as [d [Hd Hc]].
      unfold create_dataset_collections in Hd.
      apply in_map_iff in Hd. destruct Hd as [[s sch] [<- _]]. simpl in Hc.
      apply in_map_iff in Hc. destruct Hc as [[t tab] [<- _]]. simpl in Hf.
      apply in_map_iff in Hf. destruct Hf as [col [<- _]]. reflexivity. }
  split.
  - rewrite annotate_dataset_skips;
      [rewrite Em, U; reflexivity | exact S | rewrite Em, U; exact L].
  - apply built_all_field_names.
Qed.

Lemma generated_manifest_is_asked_about_in_full_witness :
  prompts
    (trace
       (annotate_dataset Fixture.key_grammar
          (fun _ =>
             create_dataset_collections
               [(py "public", [(py "public.users", [py "id"; py "email"])])])
          Fixture.categories Fixture.file Fixture.resource false true
          (mkOperator [py "s"; py " s "] [])))
  = map MField
      [mkField (py "id")
         (py "Fides Generated Description for Column: id") (Some []);
       mkField (py "email")
         (py "Fides Generated Description for Column: email") (Some [])].
Proof.
  exact (proj1
           (@generated_manifest_is_asked_about_in_full Fixture.key_grammar
              (fun _ =>
                 create_dataset_collections
                   [(py "public",
                     [(py "public.users", [py "id"; py "email"])])])
              Fixture.categories Fixture.file Fixture.resource false true
              [(py "public", [(py "public.users", [py "id"; py "email"])])]
              [py "s"; py " s "] [] eq_refl
              ltac:(repeat constructor)
              ltac:(simpl; lia))).
Defined.
